(** * Transcript reconciliation and live-channel handling of the HermitClaw
    viewer (frontend/src/App.tsx), as a shallow embedding in Rocq.

    JavaScript strings are modelled as byte strings (UTF-8); the line
    terminators of the regular expressions (LF, CR, U+2028, U+2029) are
    therefore the bytes 10 and 13 and the byte sequences E2 80 A8 and
    E2 80 A9. *)

From Stdlib Require Import String Ascii List Bool Arith ZArith Lia.
Import ListNotations.
Set Warnings "-register-all".
Open Scope string_scope.

(* ------------------------------------------------------------------ *)
(** ** JavaScript values *)

Module Js.

(** A JSON-shaped JavaScript value.  Numbers keep their decimal lexeme:
    [to_string] prints that lexeme as written, which is what JavaScript
    prints only when the lexeme is already in canonical form ([42], [1.5],
    not [1.50] or [1e3]); the statements below do not depend on how a
    number is printed. *)
Inductive jv : Type :=
| JUndef
| JNull
| JBool (b : bool)
| JNum (lexeme : string)
| JStr (s : string)
| JArr (xs : list jv)
| JObj (fields : list (string * jv)).

(** An object is its list of own properties, in insertion order, keys
    unique (JSON.parse below keeps them unique). *)
Definition obj := list (string * jv).

Fixpoint obj_get (o : obj) (k : string) : jv :=
  match o with
  | [] => JUndef
  | (k', v) :: o' => if String.eqb k k' then v else obj_get o' k
  end.

(** Property read [v.k].  Reading a property of [null] or [undefined]
    throws a TypeError ([None]).  Primitives and arrays have none of the
    (non-index, non-"length") keys this file reads. *)
Definition get_prop (v : jv) (k : string) : option jv :=
  match v with
  | JUndef | JNull => None
  | JObj o => Some (obj_get o k)
  | _ => Some JUndef
  end.

(** [v === "s"] *)
Definition is_str (v : jv) (s : string) : bool :=
  match v with
  | JStr s' => String.eqb s' s
  | _ => false
  end.

Definition char_in (c : ascii) (s : string) : bool :=
  existsb (fun d => Ascii.eqb c d) (list_ascii_of_string s).

(** A number lexeme denotes zero iff every digit of its mantissa is 0. *)
Fixpoint lexeme_is_zero (s : string) : bool :=
  match s with
  | EmptyString => true
  | String c s' =>
      if Ascii.eqb c "e" || Ascii.eqb c "E" then true
      else if char_in c "123456789" then false
      else lexeme_is_zero s'
  end.

(** ToBoolean *)
Definition truthy (v : jv) : bool :=
  match v with
  | JUndef | JNull => false
  | JBool b => b
  | JNum n => negb (lexeme_is_zero n)
  | JStr s => negb (String.eqb s "")
  | JArr _ | JObj _ => true
  end.

Fixpoint concat_sep (sep : string) (xs : list string) : string :=
  match xs with
  | [] => ""
  | [x] => x
  | x :: xs' => x ++ sep ++ concat_sep sep xs'
  end.

(** ToString, as used by [String(v)] and template literals. *)
Fixpoint to_string (v : jv) : string :=
  match v with
  | JUndef => "undefined"
  | JNull => "null"
  | JBool b => if b then "true" else "false"
  | JNum n => n
  | JStr s => s
  | JArr xs =>
      concat_sep ","
        (map (fun x => match x with JUndef | JNull => "" | _ => to_string x end) xs)
  | JObj _ => "[object Object]"
  end.

(** [Array.prototype.join(sep)] *)
Definition join (sep : string) (xs : list jv) : string :=
  concat_sep sep (map (fun x => match x with JUndef | JNull => "" | _ => to_string x end) xs).

Definition nl : string := String "010"%char EmptyString.
Definition dq : string := String "034"%char EmptyString.

(** *** [JSON.parse] *)

Definition is_ws (c : ascii) : bool :=
  Ascii.eqb c " " || Ascii.eqb c "009"%char || Ascii.eqb c "010"%char
  || Ascii.eqb c "013"%char.

Fixpoint skip_ws (s : string) : string :=
  match s with
  | String c s' => if is_ws c then skip_ws s' else s
  | EmptyString => s
  end.

Definition is_digit (c : ascii) : bool :=
  (Nat.leb 48 (nat_of_ascii c)) && (Nat.leb (nat_of_ascii c) 57).

(** Maximal run of decimal digits, and what follows it. *)
Fixpoint digits (s : string) : string * string :=
  match s with
  | String c s' =>
      if is_digit c then let '(ds, r) := digits s' in (String c ds, r) else ("", s)
  | EmptyString => ("", "")
  end.

(** A JSON number [-? (0 | [1-9][0-9]* ) (. [0-9]+)? ([eE] [+-]? [0-9]+)?],
    returned as its lexeme. *)
Definition pnumber (s : string) : option (string * string) :=
  let '(sign, r0) :=
    match s with String "-"%char r => ("-", r) | _ => ("", s) end in
  let int_part :=
    match r0 with
    | String "0"%char r1 => Some ("0", r1)
    | String c r1 =>
        if is_digit c then let '(ds, r2) := digits r1 in Some (String c ds, r2)
        else None
    | EmptyString => None
    end in
  match int_part with
  | None => None
  | Some (ip, r1) =>
      let frac :=
        match r1 with
        | String "."%char r2 =>
            let '(fd, r3) := digits r2 in
            if String.eqb fd "" then None else Some ("." ++ fd, r3)
        | _ => Some ("", r1)
        end in
      match frac with
      | None => None
      | Some (fp, r2) =>
          let exp :=
            match r2 with
            | String e r3 =>
                if Ascii.eqb e "e" || Ascii.eqb e "E" then
                  let '(sg, r4) :=
                    match r3 with
                    | String "+"%char r4 => ("+", r4)
                    | String "-"%char r4 => ("-", r4)
                    | _ => ("", r3)
                    end in
                  let '(ed, r5) := digits r4 in
                  if String.eqb ed "" then None
                  else Some (String e (sg ++ ed), r5)
                else Some ("", r2)
            | EmptyString => Some ("", r2)
            end in
          match exp with
          | None => None
          | Some (ep, r3) => Some (sign ++ ip ++ fp ++ ep, r3)
          end
      end
  end.

Definition hex_val (c : ascii) : option nat :=
  let n := nat_of_ascii c in
  if (Nat.leb 48 n) && (Nat.leb n 57) then Some (n - 48)
  else if (Nat.leb 65 n) && (Nat.leb n 70) then Some (n - 55)
  else if (Nat.leb 97 n) && (Nat.leb n 102) then Some (n - 87)
  else None.

(** UTF-8 bytes of a UTF-16 code unit written as [\uXXXX]. *)
Definition utf8_of_code (n : nat) : string :=
  if Nat.ltb n 128 then String (ascii_of_nat n) ""
  else if Nat.ltb n 2048 then
    String (ascii_of_nat (192 + n / 64)) (String (ascii_of_nat (128 + n mod 64)) "")
  else
    String (ascii_of_nat (224 + n / 4096))
      (String (ascii_of_nat (128 + (n / 64) mod 64))
         (String (ascii_of_nat (128 + n mod 64)) "")).

(** Body of a string literal after its opening quote: the decoded
    contents and the text after the closing quote. *)
Fixpoint pstring (s : string) : option (string * string) :=
  match s with
  | EmptyString => None
  | String "034"%char r => Some ("", r)
  | String "092"%char (String e r) =>
      let cont (t : string) :=
        match pstring r with Some (b, r') => Some (t ++ b, r') | None => None end in
      if Ascii.eqb e "034"%char then cont dq
      else if Ascii.eqb e "092"%char then cont (String "092"%char "")
      else if Ascii.eqb e "/" then cont "/"
      else if Ascii.eqb e "b" then cont (String "008"%char "")
      else if Ascii.eqb e "f" then cont (String "012"%char "")
      else if Ascii.eqb e "n" then cont nl
      else if Ascii.eqb e "r" then cont (String "013"%char "")
      else if Ascii.eqb e "t" then cont (String "009"%char "")
      else if Ascii.eqb e "u" then
        match r with
        | String h1 (String h2 (String h3 (String h4 r'))) =>
            match hex_val h1, hex_val h2, hex_val h3, hex_val h4 with
            | Some a, Some b, Some c, Some d =>
                match pstring r' with
                | Some (body, r'') =>
                    Some (utf8_of_code (((a * 16 + b) * 16 + c) * 16 + d) ++ body, r'')
                | None => None
                end
            | _, _, _, _ => None
            end
        | _ => None
        end
      else None
  | String c r =>
      if Nat.ltb (nat_of_ascii c) 32 then None
      else match pstring r with Some (b, r') => Some (String c b, r') | None => None end
  end.

(** Property definition of a parsed object: a repeated key keeps its
    first position and takes the new value. *)
Fixpoint obj_set (o : obj) (k : string) (v : jv) : obj :=
  match o with
  | [] => [(k, v)]
  | (k', v') :: o' => if String.eqb k k' then (k', v) :: o' else (k', v') :: obj_set o' k v
  end.

Fixpoint pvalue (fuel : nat) (s : string) : option (jv * string) :=
  match fuel with
  | O => None
  | S f =>
    match s with
    | String "n"%char _ =>
        if String.prefix "null" s then Some (JNull, substring 4 (String.length s - 4) s) else None
    | String "t"%char _ =>
        if String.prefix "true" s then Some (JBool true, substring 4 (String.length s - 4) s) else None
    | String "f"%char _ =>
        if String.prefix "false" s then Some (JBool false, substring 5 (String.length s - 5) s)
        else None
    | String "034"%char r =>
        match pstring r with Some (t, r') => Some (JStr t, r') | None => None end
    | String "["%char r =>
        match skip_ws r with
        | String "]"%char r' => Some (JArr [], r')
        | r1 => pelems f r1 []
        end
    | String "{"%char r =>
        match skip_ws r with
        | String "}"%char r' => Some (JObj [], r')
        | r1 => pmembers f r1 []
        end
    | _ => match pnumber s with Some (n, r) => Some (JNum n, r) | None => None end
    end
  end
with pelems (fuel : nat) (s : string) (acc : list jv) : option (jv * string) :=
  match fuel with
  | O => None
  | S f =>
    match pvalue f s with
    | None => None
    | Some (v, r) =>
        match skip_ws r with
        | String ","%char r' => pelems f (skip_ws r') (acc ++ [v])
        | String "]"%char r' => Some (JArr (acc ++ [v]), r')
        | _ => None
        end
    end
  end
with pmembers (fuel : nat) (s : string) (acc : obj) : option (jv * string) :=
  match fuel with
  | O => None
  | S f =>
    match s with
    | String "034"%char r =>
        match pstring r with
        | None => None
        | Some (k, r1) =>
            match skip_ws r1 with
            | String ":"%char r2 =>
                match pvalue f (skip_ws r2) with
                | None => None
                | Some (v, r3) =>
                    match skip_ws r3 with
                    | String ","%char r4 => pmembers f (skip_ws r4) (obj_set acc k v)
                    | String "}"%char r4 => Some (JObj (obj_set acc k v), r4)
                    | _ => None
                    end
                end
            | _ => None
            end
        end
    | _ => None
    end
  end.

(** [JSON.parse(s)]; [None] is the SyntaxError it throws.  Every nested
    call consumes a character or is followed by one that does, so the
    fuel never runs out on a well-formed text. *)
Definition JSON_parse (s : string) : option jv :=
  match pvalue (2 * String.length s + 2) (skip_ws s) with
  | Some (v, r) => if String.eqb (skip_ws r) "" then Some v else None
  | None => None
  end.

(** *** [JSON.stringify(v, null, 2)] *)

Definition hex_digit (n : nat) : ascii :=
  if Nat.ltb n 10 then ascii_of_nat (48 + n) else ascii_of_nat (87 + n).

Definition escape_char (c : ascii) : string :=
  let n := nat_of_ascii c in
  if Ascii.eqb c "034"%char then String "092"%char dq
  else if Ascii.eqb c "092"%char then String "092"%char (String "092"%char "")
  else if Nat.eqb n 8 then "\b"
  else if Nat.eqb n 12 then "\f"
  else if Nat.eqb n 10 then "\n"
  else if Nat.eqb n 13 then "\r"
  else if Nat.eqb n 9 then "\t"
  else if Nat.ltb n 32 then "\u00" ++ String (hex_digit (n / 16)) (String (hex_digit (n mod 16)) "")
  else String c "".

Fixpoint quote_body (s : string) : string :=
  match s with
  | EmptyString => ""
  | String c s' => escape_char c ++ quote_body s'
  end.

Definition quote (s : string) : string := dq ++ quote_body s ++ dq.

(** [None] is the [undefined] that [JSON.stringify] returns for [undefined]. *)
Fixpoint stringify_ind (ind : string) (v : jv) : option string :=
  match v with
  | JUndef => None
  | JNull => Some "null"
  | JBool b => Some (if b then "true" else "false")
  | JNum n => Some n
  | JStr s => Some (quote s)
  | JArr [] => Some "[]"
  | JArr xs =>
      let ind' := ind ++ "  " in
      Some ("[" ++ nl ++ ind'
            ++ concat_sep ("," ++ nl ++ ind')
                 (map (fun x => match stringify_ind ind' x with
                                | Some t => t | None => "null" end) xs)
            ++ nl ++ ind ++ "]")
  | JObj fs =>
      let ind' := ind ++ "  " in
      let items :=
        flat_map (fun kx => match stringify_ind ind' (snd kx) with
                            | Some t => [quote (fst kx) ++ ": " ++ t]
                            | None => [] end) fs in
      match items with
      | [] => Some "{}"
      | _ => Some ("{" ++ nl ++ ind' ++ concat_sep ("," ++ nl ++ ind') items
                   ++ nl ++ ind ++ "}")
      end
  end.

Definition JSON_stringify2 (v : jv) : option string := stringify_ind "" v.

End Js.

(* ------------------------------------------------------------------ *)
(** ** Exceptions: [None] is a thrown TypeError / SyntaxError *)

Definition obind {A B : Type} (m : option A) (k : A -> option B) : option B :=
  match m with Some a => k a | None => None end.

Notation "x <- m ;; k" := (obind m (fun x => k))
  (at level 61, m at next level, right associativity).

(* ------------------------------------------------------------------ *)
(** ** Transcript model (App.tsx, lines 4-21) *)

Module Transcript.
Import Js.

Record ApiCall : Type := mkCall {
  timestamp : string;
  instructions : string;
  input : list obj;
  output : list obj;
  is_dream : option bool;      (* is_dream?: boolean *)
  is_planning : option bool    (* is_planning?: boolean *)
}.

Inductive Phase : Type := Normal | Dream | Planning.

Inductive Side : Type := Left | Right | System.

(** [Msg]; [text] carries whatever the casts let through, an absent
    [image] is [JUndef] and an absent [isRespond] is [false]. *)
Record Msg : Type := mkMsg {
  side : Side;
  text : jv;
  phase : Phase;
  image : jv;
  isRespond : bool
}.

(** The [for (const part of content)] loop of [renderInputItem]. *)
Fixpoint scan_parts (parts : list jv) (text image : jv) : option (jv * jv) :=
  match parts with
  | [] => Some (text, image)
  | part :: rest =>
      ty <- get_prop part "type" ;;
      text' <- (if is_str ty "input_text" then get_prop part "text" else Some text) ;;
      ty' <- get_prop part "type" ;;
      image' <- (if is_str ty' "input_image" then get_prop part "image_url" else Some image) ;;
      scan_parts rest text' image'
  end.

(** [renderInputItem] (lines 29-48): outer [None] = throws, inner
    [None] = returns [null]. *)
Definition renderInputItem (item : obj) (ph : Phase) : option (option Msg) :=
  if is_str (obj_get item "role") "user" then
    let content := obj_get item "content" in
    match content with
    | JArr parts =>
        ti <- scan_parts parts (JStr "") JUndef ;;
        let '(text, image) := ti in
        Some (Some (mkMsg Left (if truthy text then text else JStr "[image]") ph image false))
    | _ => Some (Some (mkMsg Left content ph JUndef false))
    end
  else if is_str (obj_get item "type") "function_call_output" then
    Some (Some (mkMsg Left (obj_get item "output") ph JUndef false))
  else Some None.

(** [(c) => (c.text as string) || `[${c.type}]`] *)
Definition message_part (c : jv) : option jv :=
  t <- get_prop c "text" ;;
  if truthy t then Some t
  else ty <- get_prop c "type" ;; Some (JStr ("[" ++ to_string ty ++ "]")).

Fixpoint map_throw (f : jv -> option jv) (xs : list jv) : option (list jv) :=
  match xs with
  | [] => Some []
  | x :: xs' => y <- f x ;; ys <- map_throw f xs' ;; Some (y :: ys)
  end.

(** [typeof item.arguments === "string" ? JSON.parse(item.arguments) : item.arguments] *)
Definition parse_args (a : jv) : option jv :=
  match a with
  | JStr s => JSON_parse s
  | _ => Some a
  end.

(** [content?.map((c) => ...).join("\n")] *)
Definition message_text (content : jv) : option jv :=
  match content with
  | JUndef | JNull => Some JUndef
  | JArr cs => parts <- map_throw message_part cs ;; Some (JStr (join nl parts))
  | _ => None   (* content.map is not a function *)
  end.

(** The [try] block of the "respond" branch: [args.message]. *)
Definition respond_message (arguments : jv) : option jv :=
  args <- parse_args arguments ;; get_prop args "message".

(** The [try] block of the "shell" branch: [args.command]. *)
Definition shell_command (arguments : jv) : option jv :=
  args <- parse_args arguments ;; get_prop args "command".

(** [renderOutputItem] (lines 56-98). *)
Definition renderOutputItem (item : obj) (ph : Phase) : option (option Msg) :=
  if is_str (obj_get item "type") "message" then
    text <- message_text (obj_get item "content") ;;
    if truthy text then Some (Some (mkMsg Right text ph JUndef false)) else Some None
  else if is_str (obj_get item "type") "function_call" then
    let name := obj_get item "name" in
    let arguments := obj_get item "arguments" in
    if is_str name "respond" then
      match respond_message arguments with
      | Some m => Some (Some (mkMsg Right m ph JUndef true))
      | None => Some (Some (mkMsg Right (JStr (to_string arguments)) ph JUndef true))
      end
    else
      let cmd :=
        if is_str name "shell" then
          match shell_command arguments with
          | Some c => "$ " ++ to_string c
          | None => "$ " ++ to_string arguments
          end
        else
          let args :=
            match arguments with
            | JStr s => s
            | _ => match JSON_stringify2 arguments with Some t => t | None => "undefined" end
            end in
          "[" ++ to_string name ++ "] " ++ args in
      Some (Some (mkMsg Right (JStr cmd) ph JUndef false))
  else if is_str (obj_get item "type") "web_search_call" then
    Some (Some (mkMsg Right (JStr "[web search]") ph JUndef false))
  else Some None.

(** [for (const item of items) { const msg = render(item, phase); if (msg) messages.push(msg); }] *)
Fixpoint render_all (render : obj -> Phase -> option (option Msg)) (ph : Phase)
    (items : list obj) : option (list Msg) :=
  match items with
  | [] => Some []
  | it :: rest =>
      m <- render it ph ;;
      ms <- render_all render ph rest ;;
      Some (match m with Some x => x :: ms | None => ms end)
  end.

(** *** [strip] (line 343) *)

(** Removing the first [n] characters. *)
Fixpoint skip (n : nat) (s : string) : string :=
  match n, s with
  | O, _ => s
  | S n', String _ s' => skip n' s'
  | S _, EmptyString => EmptyString
  end.

(** LF and CR. *)
Definition is_line_terminator (c : ascii) : bool :=
  Ascii.eqb c "010"%char || Ascii.eqb c "013"%char.

(** [s] starts with a line terminator: LF, CR, or the UTF-8 encoding
    E2 80 A8 / E2 80 A9 of U+2028 / U+2029.  [.] matches anything else. *)
Definition terminator_at (s : string) : bool :=
  match s with
  | String c (String c1 (String c2 _)) =>
      is_line_terminator c
      || (Ascii.eqb c "226"%char && Ascii.eqb c1 "128"%char
          && (Ascii.eqb c2 "168"%char || Ascii.eqb c2 "169"%char))
  | String c _ => is_line_terminator c
  | EmptyString => false
  end.

(** Length in bytes of the longest prefix without line terminator, and
    the rest. *)
Fixpoint line_run (s : string) : nat * string :=
  match s with
  | String c s' =>
      if terminator_at s then (0, s) else let '(k, r) := line_run s' in (S k, r)
  | EmptyString => (0, EmptyString)
  end.

Definition time_key : string := "Right now it is ".

(** Length of the match of [/Right now it is .+\n/] anchored at the start
    of [s]: the greedy [.+] can only be followed by LF at the end of the
    longest run of non-terminators. *)
Definition match_time (s : string) : option nat :=
  if String.prefix time_key s then
    let '(k, r) := line_run (skip 16 s) in
    match r with
    | String c _ => if Nat.ltb 0 k && Ascii.eqb c "010"%char then Some (16 + k + 1) else None
    | EmptyString => None
    end
  else None.

(** Position of the first [\n##] in [s] (the lazy [[\s\S]*?(?=\n##)]). *)
Fixpoint find_nl_hashes (s : string) : option nat :=
  if String.prefix (nl ++ "##") s then Some 0
  else match s with
       | EmptyString => None
       | String _ s' => match find_nl_hashes s' with Some k => Some (S k) | None => None end
       end.

(** Length of the match of [/## Current (mood|focus)\n[\s\S]*?(?=\n##)/]
    anchored at the start of [s]. *)
Definition match_mood (s : string) : option nat :=
  let hdr :=
    if String.prefix ("## Current mood" ++ nl) s then Some 16
    else if String.prefix ("## Current focus" ++ nl) s then Some 17
    else None in
  match hdr with
  | Some h => match find_nl_hashes (skip h s) with Some k => Some (h + k) | None => None end
  | None => None
  end.

(** [s.replace(re, "")] for a non-global [re]: the leftmost match is removed. *)
Fixpoint replace_first (m : string -> option nat) (s : string) : string :=
  match m s with
  | Some n => skip n s
  | None =>
      match s with
      | EmptyString => EmptyString
      | String c s' => String c (replace_first m s')
      end
  end.

Definition strip (s : string) : string :=
  replace_first match_mood (replace_first match_time s).

(** *** The reconciliation loop (lines 334-380) *)

Definition flag (b : option bool) : bool :=
  match b with Some true => true | _ => false end.

(** Body of [calls.forEach((call, i) => ...)], with [prev = calls[i - 1]]
    and the current value of [seenInputItems]; returns the messages
    pushed and the new [seenInputItems]. *)
Definition process_call (prev : option ApiCall) (i : nat) (seen : nat) (call : ApiCall)
    : option (list Msg * nat) :=
  let isDream := flag (is_dream call) in
  let isPlanning := flag (is_planning call) in
  let ph := if isDream then Dream else if isPlanning then Planning else Normal in
  let prev_instructions := match prev with Some p => instructions p | None => "" end in
  let prev_dream := match prev with Some p => flag (is_dream p) | None => false end in
  let prev_planning := match prev with Some p => flag (is_planning p) | None => false end in
  let sys :=
    if negb isDream && negb isPlanning
       && (Nat.eqb i 0 || negb (String.eqb (strip (instructions call)) (strip prev_instructions)))
    then [mkMsg System (JStr (instructions call)) Normal JUndef false] else [] in
  let dream :=
    if isDream && (Nat.eqb i 0 || negb prev_dream)
    then [mkMsg System (JStr "Reflecting...") Dream JUndef false] else [] in
  let planning :=
    if isPlanning && (Nat.eqb i 0 || negb prev_planning)
    then [mkMsg System (JStr "Planning...") Planning JUndef false] else [] in
  let seen := if Nat.leb (length (input call)) seen then 0 else seen in
  ins <- render_all renderInputItem ph (skipn seen (input call)) ;;
  outs <- render_all renderOutputItem ph (output call) ;;
  Some ((sys ++ dream ++ planning ++ ins ++ outs)%list,
        length (input call) + length (output call)).

Fixpoint reconcile_from (prev : option ApiCall) (i seen : nat) (calls : list ApiCall)
    : option (list Msg * nat) :=
  match calls with
  | [] => Some ([], seen)
  | c :: cs =>
      r <- process_call prev i seen c ;;
      let '(ms, seen') := r in
      r' <- reconcile_from (Some c) (S i) seen' cs ;;
      let '(ms', e) := r' in
      Some ((ms ++ ms')%list, e)
  end.

(** [messages] and the final [seenInputItems]. *)
Definition reconcile (calls : list ApiCall) : option (list Msg * nat) :=
  reconcile_from None 0 0 calls.

Definition messages (calls : list ApiCall) : option (list Msg) :=
  match reconcile calls with Some (ms, _) => Some ms | None => None end.

End Transcript.

(* ------------------------------------------------------------------ *)
(** ** The [App] component as an event-driven state machine
    (App.tsx, lines 100-269) *)

Module Live.
Import Transcript.

Record CrabInfo : Type := mkCrab {
  crab_id : string;
  crab_name : string;
  crab_state : string;
  thought_count : Z
}.

(** The React state of [App] (the [useState] hooks). *)
Record View : Type := mkView {
  calls : list ApiCall;
  position : Z * Z;
  crabState : string;
  alert : bool;
  activity : string * string;   (* { type, detail } *)
  conversing : bool;
  countdown : Z;
  hasNew : bool;
  crabName : string;
  focusMode : bool;
  crabs : list CrabInfo;
  activeCrab : string
}.

Definition initial_view : View :=
  mkView [] (5, 5)%Z "idle" false ("idle", "") false 0%Z false "the crab" false [] "".

Definition set_calls x v := mkView x (position v) (crabState v) (alert v) (activity v) (conversing v) (countdown v) (hasNew v) (crabName v) (focusMode v) (crabs v) (activeCrab v).
Definition set_position x v := mkView (calls v) x (crabState v) (alert v) (activity v) (conversing v) (countdown v) (hasNew v) (crabName v) (focusMode v) (crabs v) (activeCrab v).
Definition set_crabState x v := mkView (calls v) (position v) x (alert v) (activity v) (conversing v) (countdown v) (hasNew v) (crabName v) (focusMode v) (crabs v) (activeCrab v).
Definition set_alert x v := mkView (calls v) (position v) (crabState v) x (activity v) (conversing v) (countdown v) (hasNew v) (crabName v) (focusMode v) (crabs v) (activeCrab v).
Definition set_activity x v := mkView (calls v) (position v) (crabState v) (alert v) x (conversing v) (countdown v) (hasNew v) (crabName v) (focusMode v) (crabs v) (activeCrab v).
Definition set_conversing x v := mkView (calls v) (position v) (crabState v) (alert v) (activity v) x (countdown v) (hasNew v) (crabName v) (focusMode v) (crabs v) (activeCrab v).
Definition set_countdown x v := mkView (calls v) (position v) (crabState v) (alert v) (activity v) (conversing v) x (hasNew v) (crabName v) (focusMode v) (crabs v) (activeCrab v).
Definition set_hasNew x v := mkView (calls v) (position v) (crabState v) (alert v) (activity v) (conversing v) (countdown v) x (crabName v) (focusMode v) (crabs v) (activeCrab v).
Definition set_crabName x v := mkView (calls v) (position v) (crabState v) (alert v) (activity v) (conversing v) (countdown v) (hasNew v) x (focusMode v) (crabs v) (activeCrab v).
Definition set_focusMode x v := mkView (calls v) (position v) (crabState v) (alert v) (activity v) (conversing v) (countdown v) (hasNew v) (crabName v) x (crabs v) (activeCrab v).
Definition set_crabs x v := mkView (calls v) (position v) (crabState v) (alert v) (activity v) (conversing v) (countdown v) (hasNew v) (crabName v) (focusMode v) x (activeCrab v).
Definition set_activeCrab x v := mkView (calls v) (position v) (crabState v) (alert v) (activity v) (conversing v) (countdown v) (hasNew v) (crabName v) (focusMode v) (crabs v) x.

(** A WebSocket object.  Its identity is its index in [chans]; [ch_open]
    is false once it closed or [close()] was called; [ch_attached] is
    false once its [onmessage]/[onclose]/[onerror] were set to [null]. *)
Record Chan : Type := mkChan {
  ch_crab : string;
  ch_open : bool;
  ch_attached : bool
}.

(** Refs, pending timers and pending promises. *)
Record Refs : Type := mkRefs {
  wsRef : option nat;                 (* wsRef.current *)
  chans : list Chan;                  (* every WebSocket created so far *)
  timers : list (nat * string);       (* pending reconnect [setTimeout]s: (ws, crabId) *)
  loads : list string;                (* pending [loadCrabState(id)] followed by [connectWs(id)] *)
  ticking : bool;                     (* the [countdownRef] interval is running *)
  effConversing : bool                (* [conversing] when the countdown effect last ran *)
}.

Definition initial_refs : Refs := mkRefs None [] [] [] false false.

Definition set_wsRef x r := mkRefs x (chans r) (timers r) (loads r) (ticking r) (effConversing r).
Definition set_chans x r := mkRefs (wsRef r) x (timers r) (loads r) (ticking r) (effConversing r).
Definition set_timers x r := mkRefs (wsRef r) (chans r) x (loads r) (ticking r) (effConversing r).
Definition set_loads x r := mkRefs (wsRef r) (chans r) (timers r) x (ticking r) (effConversing r).
Definition set_ticking x r := mkRefs (wsRef r) (chans r) (timers r) (loads r) x (effConversing r).
Definition set_effConversing x r := mkRefs (wsRef r) (chans r) (timers r) (loads r) (ticking r) x.

Fixpoint update_nth {A : Type} (n : nat) (f : A -> A) (l : list A) : list A :=
  match n, l with
  | _, [] => []
  | O, x :: l' => f x :: l'
  | S n', x :: l' => x :: update_nth n' f l'
  end.

Fixpoint remove_nth {A : Type} (n : nat) (l : list A) : list A :=
  match n, l with
  | _, [] => []
  | O, _ :: l' => l'
  | S n', x :: l' => x :: remove_nth n' l'
  end.

(** [connectWs(crabId)] (lines 122-170): detach and close the current
    socket, then open a new one and make it current. *)
Definition connectWs (crabId : string) (r : Refs) : Refs :=
  let old :=
    match wsRef r with
    | Some k => update_nth k (fun c => mkChan (ch_crab c) false false) (chans r)
    | None => chans r
    end in
  let r := set_wsRef None (set_chans old r) in
  set_wsRef (Some (length old)) (set_chans (old ++ [mkChan crabId true true]) r).

(** The parsed payload of a WebSocket message. *)
Inductive ConvState : Type := Waiting (timeout : Z) | Ended | OtherConvState.

Inductive WsMsg : Type :=
| MsgApiCall (c : ApiCall)
| MsgPosition (x y : Z)
| MsgStatus (state : string)
| MsgAlert
| MsgActivity (type detail : string)
| MsgFocusMode (enabled : bool)
| MsgConversation (st : ConvState)
| MsgOther.

(** [ws.onmessage] (lines 136-156). *)
Definition onmessage (m : WsMsg) (v : View) : View :=
  match m with
  | MsgApiCall c => set_calls (calls v ++ [c]) v
  | MsgPosition x y => set_position (x, y) v
  | MsgStatus st =>
      let v := set_crabState st v in
      if String.eqb st "thinking" then set_alert false v else v
  | MsgAlert => set_alert true v
  | MsgActivity ty d => set_activity (ty, d) v
  | MsgFocusMode b => set_focusMode b v
  | MsgConversation (Waiting t) => set_countdown t (set_conversing true v)
  | MsgConversation Ended => set_countdown 0 (set_conversing false v)
  | MsgConversation OtherConvState => v
  | MsgOther => v
  end.

(** The parsed body of [/api/status]: JSON [null], on which reading
    [.position] throws, or a value whose [position] (when truthy),
    [focus_mode] (when not undefined) and [state] are read with the types
    the code gives them; a value that is not an object has none of them
    ([None], [None], [""]), and a falsy [state] is [""]. *)
Inductive Status : Type :=
| StatusNull
| StatusVal (position : option (Z * Z)) (focus_mode : option bool) (state : string).

(** The parsed body of [/api/identity]: JSON [null], on which reading
    [.name] throws, or a value whose falsy or absent [name] is [""]. *)
Inductive Identity : Type :=
| IdentityNull
| IdentityVal (name : string).

(** The three responses of [loadCrabState], once fetched and parsed;
    [None] when a fetch or a [.json()] failed, before any state update
    (the catch ignores it). *)
Record Bootstrap : Type := mkBoot {
  raw : list ApiCall;
  status : Status;
  identity : Identity
}.

(** The state updates at the end of [loadCrabState] (lines 184-188); a
    property read on [null] throws and skips the updates after it, the
    ones before it having been made. *)
Definition apply_bootstrap (b : option Bootstrap) (v : View) : View :=
  match b with
  | None => v
  | Some d =>
      let v := set_calls (raw d) v in
      match status d with
      | StatusNull => v
      | StatusVal pos fm st =>
          let v := match pos with Some p => set_position p v | None => v end in
          let v := match fm with Some f => set_focusMode f v | None => v end in
          let v := set_crabState (if String.eqb st "" then "idle" else st) v in
          match identity d with
          | IdentityNull => v
          | IdentityVal n => if String.eqb n "" then v else set_crabName n v
          end
      end
  end.

(** [switchCrab(crabId)] (lines 224-241). *)
Definition switchCrab (crabId : string) (v : View) (r : Refs) : View * Refs :=
  if String.eqb crabId (activeCrab v) then (v, r)
  else
    let v := set_activeCrab crabId v in
    let v := set_conversing false v in
    let v := set_countdown 0 v in
    let v := set_alert false v in
    let v := set_activity ("idle", "") v in
    let v := set_hasNew false v in
    let v := match find (fun c => String.eqb (crab_id c) crabId) (crabs v) with
             | Some c => set_crabName (crab_name c) v
             | None => v
             end in
    (v, set_loads (loads r ++ [crabId]) r).

(** The countdown effect (lines 255-269), run after a render in which
    [conversing] changed: the cleanup and the body both clear the
    interval, and the body starts a new one when [countdown > 0]. *)
Definition commit (v : View) (r : Refs) : Refs :=
  if Bool.eqb (conversing v) (effConversing r) then r
  else set_effConversing (conversing v) (set_ticking (Z.ltb 0 (countdown v)) r).

(** One run of the interval callback. *)
Definition tick (v : View) (r : Refs) : View * Refs :=
  if ticking r then
    if Z.leb (countdown v) 1 then (set_countdown 0 v, set_ticking false r)
    else (set_countdown (countdown v - 1) v, r)
  else (v, r).

Inductive Event : Type :=
| Mounted (list : list CrabInfo)     (* the mount effect's [/api/crabs] resolved *)
| Polled (list : list CrabInfo)      (* the 5 s poll resolved *)
| WsMessage (k : nat) (m : WsMsg)     (* socket [k] received a message *)
| WsClose (k : nat)                  (* socket [k] closed *)
| TimerFire (j : nat)                (* the [j]-th pending reconnect timeout fires *)
| LoadDone (j : nat) (b : option Bootstrap)  (* the [j]-th pending bootstrap completes *)
| Switch (crabId : string)           (* a switcher button was clicked *)
| Tick.                              (* the countdown interval fires *)

Definition handle (s : View * Refs) (e : Event) : View * Refs :=
  let '(v, r) := s in
  match e with
  | Mounted l =>
      let v := set_crabs l v in
      match l with
      | first :: _ =>
          (set_crabName (crab_name first) (set_activeCrab (crab_id first) v),
           set_loads (loads r ++ [crab_id first]) r)
      | [] => (v, r)
      end
  | Polled l => (set_crabs l v, r)
  | WsMessage k m =>
      match nth_error (chans r) k with
      | Some c => if ch_open c && ch_attached c then (onmessage m v, r) else (v, r)
      | None => (v, r)
      end
  | WsClose k =>
      match nth_error (chans r) k with
      | Some c =>
          if ch_open c then
            let r' := set_chans (update_nth k (fun c => mkChan (ch_crab c) false (ch_attached c)) (chans r)) r in
            (* onclose: if (wsRef.current === ws) setTimeout(..., 3000) *)
            if ch_attached c && (match wsRef r with Some k' => Nat.eqb k k' | None => false end)
            then (v, set_timers (timers r' ++ [(k, ch_crab c)]) r')
            else (v, r')
          else (v, r)
      | None => (v, r)
      end
  | TimerFire j =>
      match nth_error (timers r) j with
      | Some (k, crabId) =>
          let r := set_timers (remove_nth j (timers r)) r in
          (* if (wsRef.current === ws) connectWs(crabId) *)
          if (match wsRef r with Some k' => Nat.eqb k k' | None => false end)
          then (v, connectWs crabId r) else (v, r)
      | None => (v, r)
      end
  | LoadDone j b =>
      match nth_error (loads r) j with
      | Some crabId =>
          (apply_bootstrap b v, connectWs crabId (set_loads (remove_nth j (loads r)) r))
      | None => (v, r)
      end
  | Switch crabId => switchCrab crabId v r
  | Tick => tick v r
  end.

(** An event handler followed by React's commit of its state updates. *)
Definition step (s : View * Refs) (e : Event) : View * Refs :=
  let '(v, r) := handle s e in (v, commit v r).

Definition run (evs : list Event) : View * Refs :=
  fold_left step evs (initial_view, initial_refs).

End Live.

(* ------------------------------------------------------------------ *)
(** ** Vocabulary of the specification *)

Import Js Transcript Live.
Open Scope list_scope.

Definition phase_of (c : ApiCall) : Phase :=
  if flag (is_dream c) then Dream else if flag (is_planning c) then Planning else Normal.

(** Agent-side lines. *)
Definition is_right (m : Msg) : bool :=
  match side m with Right => true | _ => false end.

(** System-prompt dividers: the only system lines of the normal phase. *)
Definition is_prompt (m : Msg) : bool :=
  match side m, phase m with System, Normal => true | _, _ => false end.

Definition prompt_of (c : ApiCall) : Msg :=
  mkMsg System (JStr (instructions c)) Normal JUndef false.

Definition prev_instructions (prev : option ApiCall) : string :=
  match prev with Some p => instructions p | None => "" end.

(** The system-prompt dividers of a log: record [i] gets one when it is
    of the normal phase and it is the first record, or its stripped
    instructions differ from those of record [i - 1], whatever the
    phase of record [i - 1]. *)
Fixpoint expected_prompts (prev : option ApiCall) (i : nat) (cs : list ApiCall) : list Msg :=
  match cs with
  | [] => []
  | c :: cs' =>
      (match phase_of c with
       | Normal =>
           if Nat.eqb i 0
              || negb (String.eqb (strip (instructions c)) (strip (prev_instructions prev)))
           then [prompt_of c] else []
       | _ => []
       end) ++ expected_prompts (Some c) (S i) cs'
  end.

(** The last part of the given type, read at [key]; [dflt] when there
    is none. *)
Definition last_field (ty key : string) (parts : list obj) (dflt : jv) : jv :=
  match find (fun p => is_str (obj_get p "type") ty) (rev parts) with
  | Some p => obj_get p key
  | None => dflt
  end.

(** [k] occurs in [s]. *)
Fixpoint contains (k s : string) : bool :=
  String.prefix k s || match s with EmptyString => false | String _ s' => contains k s' end.

(** [s] is empty or ends with a line feed: what follows it starts a line. *)
Fixpoint line_start (s : string) : bool :=
  match s with
  | EmptyString => true
  | String c EmptyString => Ascii.eqb c "010"%char
  | String _ s' => line_start s'
  end.

(** No line terminator (LF, CR, U+2028, U+2029) starts anywhere in [s]. *)
Fixpoint no_terminator (s : string) : bool :=
  match s with
  | EmptyString => true
  | String c s' => negb (terminator_at s) && no_terminator s'
  end.

(** Concrete items and records. *)
Definition user_text (t : string) : obj := [("role", JStr "user"); ("content", JStr t)].
Definition tool_result (t : string) : obj :=
  [("type", JStr "function_call_output"); ("output", JStr t)].
Definition respond_call (arguments : string) : obj :=
  [("type", JStr "function_call"); ("name", JStr "respond"); ("arguments", JStr arguments)].
Definition hello_args : string :=
  ("{" ++ dq ++ "message" ++ dq ++ ":" ++ dq ++ "hello" ++ dq ++ "}")%string.
Definition record1 (ins : string) : ApiCall :=
  mkCall "t1" ins [user_text "hi"] [respond_call hello_args] None None.
Definition record2 (ins : string) : ApiCall :=
  mkCall "t2" ins [user_text "hi"; tool_result "ok"] [] None None.
Definition left_line (t : string) : Msg := mkMsg Left (JStr t) Normal JUndef false.
Definition respond_line (t : string) : Msg := mkMsg Right (JStr t) Normal JUndef true.

(** Content parts of a structured user message. *)
Definition text_part (t : string) : obj := [("type", JStr "input_text"); ("text", JStr t)].
Definition image_part (u : string) : obj := [("type", JStr "input_image"); ("image_url", JStr u)].
Definition user_parts (parts : list obj) : obj :=
  [("role", JStr "user"); ("content", JArr (map JObj parts))].

(** Records without items, of the normal and of the dream phase. *)
Definition normal_call (ins : string) : ApiCall := mkCall "t" ins [] [] None None.
Definition dream_call (ins : string) : ApiCall := mkCall "t" ins [] [] (Some true) None.

(** The two-record log of the end-to-end example, and its transcript
    after the first record. *)
Definition log12 (ins : string) : list ApiCall := [record1 ins; record2 ins].
Definition transcript1 (ins : string) : list Msg :=
  [prompt_of (record1 ins); left_line "hi"; respond_line "hello"].

(** Two entities, and the events that make [a] active and connected. *)
Definition crabA : CrabInfo := mkCrab "a" "A" "idle" 0.
Definition crabB : CrabInfo := mkCrab "b" "B" "idle" 0.
Definition connect_a : list Event := [Mounted [crabA; crabB]; LoadDone 0 None].

(** A system prompt with a timestamp line. *)
Definition timed_prompt (t : string) : string :=
  ("You are a crab." ++ nl ++ time_key ++ t ++ nl ++ "Be kind.")%string.

(** Event sequences: the socket of [a] closes and the user switches to
    [b]; then [b]'s bootstrap completes. *)
Definition closed_then_switched : list Event := connect_a ++ [WsClose 0; Switch "b"].
Definition b_connected : list Event := closed_then_switched ++ [LoadDone 0 None].

(** Every open socket is the current one ([wsRef.current]). *)
Definition one_open (r : Refs) : Prop :=
  forall k c, nth_error (chans r) k = Some c -> ch_open c = true -> wsRef r = Some k.

(** [stateLabel] and [stateColor] of the switcher (lines 382-394). *)
Definition stateLabel (state : string) : string :=
  if String.eqb state "thinking" then "thinking"
  else if String.eqb state "reflecting" then "reflecting"
  else if String.eqb state "planning" then "planning"
  else "idle".

Definition stateColor (state : string) : string :=
  if String.eqb state "thinking" then "#007aff"
  else if String.eqb state "reflecting" then "#7c3aed"
  else if String.eqb state "planning" then "#0d9488"
  else "#999".

(** Subject-side lines. *)
Definition is_left (m : Msg) : bool :=
  match side m with Left => true | _ => false end.

Definition phase_eqb (a b : Phase) : bool :=
  match a, b with
  | Normal, Normal | Dream, Dream | Planning, Planning => true
  | _, _ => false
  end.

(** System lines of phase [ph]: for the dream and planning phases, the
    dividers. *)
Definition is_divider (ph : Phase) (m : Msg) : bool :=
  match side m with System => phase_eqb (phase m) ph | _ => false end.

Definition reflecting_line : Msg := mkMsg System (JStr "Reflecting...") Dream JUndef false.
Definition planning_line : Msg := mkMsg System (JStr "Planning...") Planning JUndef false.

(** Number of maximal runs of [true] in [bs], [prev] being the value
    before the first one. *)
Fixpoint runs (prev : bool) (bs : list bool) : nat :=
  match bs with
  | [] => 0
  | b :: bs' => (if b && negb prev then 1 else 0) + runs b bs'
  end.

(** [calls[i - 1]] after the records [cs]. *)
Definition last_call (prev : option ApiCall) (cs : list ApiCall) : option ApiCall :=
  fold_left (fun _ c => Some c) cs prev.

(** A tool loop: the input of each record is the input and output of
    the record before it followed by the non-empty new items [nw]. *)
Fixpoint grows (prev : ApiCall) (cs : list ApiCall) (nws : list (list obj)) : Prop :=
  match cs, nws with
  | [], [] => True
  | c :: cs', nw :: nws' =>
      nw <> [] /\ input c = input prev ++ output prev ++ nw /\ grows c cs' nws'
  | _, _ => False
  end.

Definition shell_call (arguments : string) : obj :=
  [("type", JStr "function_call"); ("name", JStr "shell"); ("arguments", JStr arguments)].
Definition tool_call (name arguments : string) : obj :=
  [("type", JStr "function_call"); ("name", JStr name); ("arguments", JStr arguments)].
Definition planning_call (ins : string) : ApiCall := mkCall "t" ins [] [] None (Some true).
Definition call_io (ins : list obj) (outs : list obj) : ApiCall := mkCall "t" "I" ins outs None None.

(** No socket has two pending reconnect timers, and every pending timer
    belongs to a closed socket. *)
Definition timers_ok (r : Refs) : Prop :=
  NoDup (map fst (timers r)) /\
  forall k id, In (k, id) (timers r) -> exists c, nth_error (chans r) k = Some c /\ ch_open c = false.

(** The countdown interval runs only during a conversation, and outside
    one the countdown is 0. *)
Definition countdown_ok (s : View * Refs) : Prop :=
  effConversing (snd s) = conversing (fst s) /\
  (ticking (snd s) = true -> conversing (fst s) = true) /\
  (conversing (fst s) = false -> countdown (fst s) = 0%Z).

(* ------------------------------------------------------------------ *)
(** ** Classifier lemmas *)

Ltac break_in H :=
  repeat match type of H with
         | context [match ?x with _ => _ end] => destruct x; cbv beta iota zeta in H
         end.

Lemma renderInputItem_left it ph m :
  renderInputItem it ph = Some (Some m) -> side m = Left.
Proof.
  unfold renderInputItem, obind; cbv zeta; intros H.
  break_in H; try discriminate H; injection H as <-; reflexivity.
Qed.

Lemma renderOutputItem_right it ph m :
  renderOutputItem it ph = Some (Some m) -> side m = Right.
Proof.
  unfold renderOutputItem; cbv zeta; intros H.
  destruct (is_str _ "message").
  { destruct (message_text _) as [t|]; cbn [obind] in H; [|discriminate H].
    destruct (truthy t); [injection H as <-; reflexivity | discriminate H]. }
  destruct (is_str _ "function_call").
  { destruct (is_str _ "respond");
      [destruct (respond_message _) |]; injection H as <-; reflexivity. }
  destruct (is_str _ "web_search_call"); [injection H as <-; reflexivity | discriminate H].
Qed.

Lemma render_all_Forall (r : obj -> Phase -> option (option Msg)) ph (P : Msg -> Prop) :
  (forall it m, r it ph = Some (Some m) -> P m) ->
  forall xs ms, render_all r ph xs = Some ms -> Forall P ms.
Proof.
  intros HP xs; induction xs as [|it xs IH]; simpl; intros ms H.
  - injection H as <-; constructor.
  - destruct (r it ph) as [[m|]|] eqn:E; simpl in H; try discriminate H;
      destruct (render_all r ph xs) as [ms'|] eqn:E'; simpl in H; try discriminate H;
      injection H as <-; eauto.
Qed.

Lemma filter_nil_Forall (f : Msg -> bool) (ms : list Msg) :
  Forall (fun m => f m = false) ms -> filter f ms = [].
Proof. induction 1 as [|m ms Hm _ IH]; simpl; [reflexivity | now rewrite Hm]. Qed.

Lemma filter_id_Forall (f : Msg -> bool) (ms : list Msg) :
  Forall (fun m => f m = true) ms -> filter f ms = ms.
Proof. induction 1 as [|m ms Hm _ IH]; simpl; [reflexivity | now rewrite Hm, IH]. Qed.

Lemma inputs_not_right ph xs ms :
  render_all renderInputItem ph xs = Some ms ->
  Forall (fun m => is_right m = false /\ is_prompt m = false) ms.
Proof.
  apply render_all_Forall; intros it m H; apply renderInputItem_left in H.
  unfold is_right, is_prompt; rewrite H; auto.
Qed.

Lemma outputs_right ph xs ms :
  render_all renderOutputItem ph xs = Some ms ->
  Forall (fun m => is_right m = true /\ is_prompt m = false) ms.
Proof.
  apply render_all_Forall; intros it m H; apply renderOutputItem_right in H.
  unfold is_right, is_prompt; rewrite H; auto.
Qed.

(* ------------------------------------------------------------------ *)
(** ** One iteration of the reconciliation loop *)

Lemma process_call_spec prev i seen c ms s' :
  process_call prev i seen c = Some (ms, s') ->
  exists hdr ins outs,
    ms = hdr ++ ins ++ outs /\
    Forall (fun m => side m = System) hdr /\
    filter is_prompt hdr =
      (match phase_of c with
       | Normal =>
           if Nat.eqb i 0
              || negb (String.eqb (strip (instructions c)) (strip (prev_instructions prev)))
           then [prompt_of c] else []
       | _ => []
       end) /\
    render_all renderInputItem (phase_of c)
      (skipn (if Nat.leb (length (input c)) seen then 0 else seen) (input c)) = Some ins /\
    render_all renderOutputItem (phase_of c) (output c) = Some outs /\
    s' = length (input c) + length (output c).
Proof.
  unfold process_call, phase_of, prev_instructions; cbv zeta; intros H.
  destruct (render_all renderInputItem _ _) as [ins|] eqn:Hi; cbn [obind] in H; [|discriminate H].
  destruct (render_all renderOutputItem _ _) as [outs|] eqn:Ho; cbn [obind] in H; [|discriminate H].
  injection H as <- <-.
  eexists _, ins, outs; split; [rewrite app_assoc, app_assoc; reflexivity|].
  split; [|split; [|split; [reflexivity | split; [reflexivity | reflexivity]]]];
    destruct (flag (is_dream c)), (flag (is_planning c)); cbn [negb andb orb];
    repeat match goal with |- context [if ?b then _ else _] => destruct b end;
    cbn [app filter is_prompt side phase]; auto.
Qed.

Lemma reconcile_from_cons prev i seen c cs ms e :
  reconcile_from prev i seen (c :: cs) = Some (ms, e) ->
  exists ms1 s1 ms2,
    process_call prev i seen c = Some (ms1, s1) /\
    reconcile_from (Some c) (S i) s1 cs = Some (ms2, e) /\
    ms = ms1 ++ ms2.
Proof.
  cbn [reconcile_from]; intros H.
  destruct (process_call prev i seen c) as [[ms1 s1]|]; cbn [obind] in H; [|discriminate H].
  destruct (reconcile_from (Some c) (S i) s1 cs) as [[ms2 e2]|] eqn:Hr; cbn [obind] in H;
    [|discriminate H].
  injection H as <- <-; exists ms1, s1, ms2; auto.
Qed.

Lemma reconcile_from_outputs cs : forall prev i seen ms e,
  reconcile_from prev i seen cs = Some (ms, e) ->
  exists outss,
    Forall2 (fun c outs => render_all renderOutputItem (phase_of c) (output c) = Some outs)
      cs outss /\
    filter is_right ms = concat outss.
Proof.
  induction cs as [|c cs IH]; intros prev i seen ms e H.
  - cbn in H; injection H as <- <-; exists []; split; constructor.
  - apply reconcile_from_cons in H as (ms1 & s1 & ms2 & Hp & Hr & ->).
    apply process_call_spec in Hp as (hdr & ins & outs & -> & Hh & _ & Hi & Ho & _).
    destruct (IH _ _ _ _ _ Hr) as (outss & HF & Hf).
    exists (outs :: outss); split; [constructor; assumption|].
    rewrite !filter_app, Hf.
    rewrite (filter_nil_Forall is_right hdr)
      by (eapply Forall_impl; [|exact Hh]; intros m Hm; unfold is_right; now rewrite Hm).
    rewrite (filter_nil_Forall is_right ins)
      by (eapply Forall_impl; [|exact (inputs_not_right _ _ _ Hi)]; intros m [Hm _]; exact Hm).
    rewrite (filter_id_Forall is_right outs)
      by (eapply Forall_impl; [|exact (outputs_right _ _ _ Ho)]; intros m [Hm _]; exact Hm).
    reflexivity.
Qed.

Lemma reconcile_from_prompts cs : forall prev i seen ms e,
  reconcile_from prev i seen cs = Some (ms, e) ->
  filter is_prompt ms = expected_prompts prev i cs.
Proof.
  induction cs as [|c cs IH]; intros prev i seen ms e H.
  - cbn in H; injection H as <- <-; reflexivity.
  - apply reconcile_from_cons in H as (ms1 & s1 & ms2 & Hp & Hr & ->).
    apply process_call_spec in Hp as (hdr & ins & outs & -> & _ & Hh & Hi & Ho & _).
    cbn [expected_prompts]; rewrite !filter_app, Hh, (IH _ _ _ _ _ Hr).
    rewrite (filter_nil_Forall is_prompt ins)
      by (eapply Forall_impl; [|exact (inputs_not_right _ _ _ Hi)]; intros m [_ Hm]; exact Hm).
    rewrite (filter_nil_Forall is_prompt outs)
      by (eapply Forall_impl; [|exact (outputs_right _ _ _ Ho)]; intros m [_ Hm]; exact Hm).
    rewrite !app_nil_r; reflexivity.
Qed.

(* ------------------------------------------------------------------ *)
(** ** String lemmas for [strip] *)

Lemma prefix_app_cases k : forall p r,
  String.prefix k (p ++ r)%string = true ->
  String.prefix k p = true \/ exists k2, k = (p ++ k2)%string.
Proof.
  induction k as [|a k IH]; intros p r H; [left; destruct p; reflexivity|].
  destruct p as [|b p]; [right; exists (String a k); reflexivity|].
  cbn in H |- *; destruct (ascii_dec a b) as [<-|]; [|discriminate H].
  destruct (IH p r H) as [Hp|[k2 ->]]; [left; exact Hp | right; exists k2; reflexivity].
Qed.

Lemma prefix_app_self k x : String.prefix k (k ++ x)%string = true.
Proof.
  induction k as [|a k IH]; [destruct x; reflexivity|].
  cbn; destruct (ascii_dec a a) as [_|n]; [exact IH | contradiction].
Qed.

Lemma contains_nl p : forall k2,
  p <> EmptyString -> line_start p = true -> contains nl (p ++ k2)%string = true.
Proof.
  induction p as [|c p IH]; intros k2 Hne Hl; [contradiction|].
  destruct p as [|c' p'].
  - cbn in Hl; apply Ascii.eqb_eq in Hl as ->.
    cbn [contains]; apply orb_true_iff; left; destruct k2; reflexivity.
  - cbn [contains]; apply orb_true_iff; right.
    apply IH; [discriminate | exact Hl].
Qed.

Lemma match_time_none p r :
  p <> EmptyString -> contains time_key p = false -> line_start p = true ->
  match_time (p ++ r)%string = None.
Proof.
  intros Hne Hc Hl; unfold match_time.
  destruct (String.prefix time_key (p ++ r)) eqn:E; [|reflexivity].
  destruct (prefix_app_cases _ _ _ E) as [Hp|[k2 Hk]].
  - destruct p; cbn [contains] in Hc; rewrite Hp in Hc; discriminate Hc.
  - pose proof (contains_nl p k2 Hne Hl) as Hn; rewrite <- Hk in Hn.
    discriminate Hn.
Qed.

Lemma replace_time_prefix p : forall r,
  contains time_key p = false -> line_start p = true ->
  replace_first match_time (p ++ r)%string = (p ++ replace_first match_time r)%string.
Proof.
  induction p as [|c p IH]; intros r Hc Hl; [reflexivity|].
  change (String c p ++ r)%string with (String c (p ++ r)).
  cbn [replace_first].
  pose proof (match_time_none (String c p) r) as Hn; cbn [append] in Hn.
  rewrite Hn by (discriminate || assumption).
  cbn [append]; f_equal; apply IH.
  - cbn [contains] in Hc; apply orb_false_iff in Hc as [_ Hc]; exact Hc.
  - destruct p; [reflexivity | exact Hl].
Qed.

(** A terminator cannot straddle the end of [t] when LF follows it. *)
Lemma terminator_at_nl c t x :
  terminator_at (String c t) = false -> terminator_at (String c (t ++ nl ++ x)) = false.
Proof.
  destruct t as [|c1 [|c2 t]]; intros H; [| |exact H]; unfold nl in *; simpl in *;
    rewrite H; simpl.
  - destruct (Ascii.eqb c "226"%char), x; reflexivity.
  - destruct (Ascii.eqb c "226"%char), (Ascii.eqb c1 "128"%char); reflexivity.
Qed.

Lemma line_run_no_terminator t x :
  no_terminator t = true -> line_run (t ++ nl ++ x)%string = (String.length t, (nl ++ x)%string).
Proof.
  induction t as [|c t IH]; intros H.
  - destruct x as [|x1 [|x2 x]]; reflexivity.
  - cbn [no_terminator] in H; apply andb_true_iff in H as [Hc Ht].
    apply negb_true_iff in Hc.
    cbn [append line_run]; rewrite (terminator_at_nl c t x Hc), (IH Ht); reflexivity.
Qed.

Lemma skip_app a b : skip (String.length a) (a ++ b)%string = b.
Proof. induction a as [|c a IH]; [reflexivity | exact IH]. Qed.

Lemma skip_add n m s : skip (n + m) s = skip m (skip n s).
Proof.
  revert s; induction n as [|n IH]; intros s; [reflexivity|].
  destruct s; cbn; [destruct m; reflexivity | apply IH].
Qed.

Lemma replace_first_hit m s n : m s = Some n -> replace_first m s = skip n s.
Proof. intros H; destruct s; cbn [replace_first]; rewrite H; reflexivity. Qed.

Lemma strip_timestamp_line p t q :
  contains time_key p = false -> line_start p = true ->
  t <> EmptyString -> no_terminator t = true ->
  strip (p ++ time_key ++ t ++ nl ++ q)%string = replace_first match_mood (p ++ q)%string.
Proof.
  intros Hc Hl Hne Ht; unfold strip; f_equal.
  rewrite replace_time_prefix by assumption; f_equal.
  assert (Hm : match_time (time_key ++ t ++ nl ++ q)%string = Some (16 + String.length t + 1)).
  { unfold match_time; rewrite prefix_app_self.
    change (skip 16 (time_key ++ t ++ nl ++ q)%string) with (t ++ nl ++ q)%string.
    rewrite line_run_no_terminator by exact Ht.
    destruct t; [contradiction | reflexivity]. }
  rewrite (replace_first_hit _ _ _ Hm), <- Nat.add_assoc, skip_add.
  change 16 with (String.length time_key); rewrite skip_app.
  change 1 with (String.length nl); rewrite skip_add, skip_app.
  apply skip_app.
Qed.

(* ------------------------------------------------------------------ *)
(** ** The parts loop of [renderInputItem] *)

Lemma find_app {A : Type} (f : A -> bool) l1 l2 :
  find f (l1 ++ l2) = match find f l1 with Some x => Some x | None => find f l2 end.
Proof.
  induction l1 as [|a l1 IH]; cbn; [reflexivity|].
  destruct (f a); [reflexivity | exact IH].
Qed.

Lemma last_field_cons ty key p ps d :
  last_field ty key (p :: ps) d =
  last_field ty key ps (if is_str (obj_get p "type") ty then obj_get p key else d).
Proof.
  unfold last_field; cbn [rev]; rewrite find_app.
  destruct (find _ (rev ps)); [reflexivity|].
  cbn [find]; destruct (is_str (obj_get p "type") ty); reflexivity.
Qed.

Lemma scan_parts_objs parts : forall text image,
  scan_parts (map JObj parts) text image =
  Some (last_field "input_text" "text" parts text,
        last_field "input_image" "image_url" parts image).
Proof.
  induction parts as [|p ps IH]; intros text image; [reflexivity|].
  cbn [map scan_parts get_prop obind]; rewrite !last_field_cons.
  destruct (is_str (obj_get p "type") "input_text"), (is_str (obj_get p "type") "input_image");
    cbn [obind]; apply IH.
Qed.

(* ------------------------------------------------------------------ *)
(** ** Sockets *)

Lemma nth_update_nth {A : Type} (f : A -> A) l : forall k k',
  nth_error (update_nth k f l) k' =
  if Nat.eqb k k' then option_map f (nth_error l k') else nth_error l k'.
Proof.
  induction l as [|x l IH]; intros [|k] [|k']; cbn; try reflexivity;
    try (destruct (Nat.eqb _ _); reflexivity); apply IH.
Qed.

Lemma length_update_nth {A : Type} (f : A -> A) l : forall k,
  length (update_nth k f l) = length l.
Proof. induction l as [|x l IH]; intros [|k]; cbn; auto. Qed.

Lemma nth_error_app_last {A : Type} (l : list A) x : forall k,
  nth_error (l ++ [x]) k = if Nat.eqb k (length l) then Some x else nth_error l k.
Proof.
  induction l as [|y l IH]; intros [|k]; cbn; try reflexivity.
  - destruct k; reflexivity.
  - apply IH.
Qed.

Lemma one_open_ext r r' :
  one_open r -> chans r' = chans r -> wsRef r' = wsRef r -> one_open r'.
Proof. unfold one_open; intros H Hc Hw k c; rewrite Hc, Hw; apply H. Qed.

Lemma one_open_close k r :
  one_open r ->
  one_open (set_chans (update_nth k (fun c => mkChan (ch_crab c) false (ch_attached c)) (chans r)) r).
Proof.
  unfold one_open; cbn [set_chans chans wsRef]; intros H k' c.
  rewrite nth_update_nth; destruct (Nat.eqb k k').
  - destruct (nth_error (chans r) k'); cbn; [intros Hc; injection Hc as <-; discriminate | discriminate].
  - apply H.
Qed.

Lemma connectWs_one_open id r : one_open r -> one_open (connectWs id r).
Proof.
  unfold one_open, connectWs; intros Hinv k c; cbn [chans wsRef set_wsRef set_chans].
  rewrite nth_error_app_last.
  destruct (Nat.eqb k _) eqn:E.
  - apply Nat.eqb_eq in E; intros _ _; rewrite E; reflexivity.
  - intros Hk Ho; exfalso.
    destruct (wsRef r) as [w|] eqn:Hw.
    + rewrite nth_update_nth in Hk.
      destruct (Nat.eqb w k) eqn:Ewk.
      * destruct (nth_error (chans r) k); cbn in Hk;
          [injection Hk as <-; discriminate Ho | discriminate Hk].
      * specialize (Hinv k c Hk Ho); try rewrite Hw in Hinv; injection Hinv as ->.
        rewrite Nat.eqb_refl in Ewk; discriminate Ewk.
    + specialize (Hinv k c Hk Ho); try rewrite Hw in Hinv; discriminate Hinv.
Qed.

Lemma commit_refs v r :
  chans (commit v r) = chans r /\ wsRef (commit v r) = wsRef r /\
  timers (commit v r) = timers r /\ loads (commit v r) = loads r.
Proof. unfold commit; destruct (Bool.eqb _ _); repeat split. Qed.

Lemma handle_one_open v r e : one_open r -> one_open (snd (handle (v, r) e)).
Proof.
  intros H; destruct e as [l|l|k m|k|j|j b|id|]; cbn [handle].
  - destruct l; cbn [snd]; [exact H | apply (one_open_ext r); auto].
  - exact H.
  - destruct (nth_error (chans r) k) as [c|]; [destruct (ch_open c && ch_attached c)|]; exact H.
  - destruct (nth_error (chans r) k) as [c|]; [|exact H].
    destruct (ch_open c); [|exact H].
    pose proof (one_open_close k r H) as Hc.
    destruct (_ && _); cbn [snd]; [apply (one_open_ext _ _ Hc); reflexivity | exact Hc].
  - destruct (nth_error (timers r) j) as [[k id]|]; [|exact H].
    assert (Ht : one_open (set_timers (remove_nth j (timers r)) r)) by (apply (one_open_ext r); auto).
    destruct (match _ with Some k' => _ | None => false end);
      cbn [snd]; [apply connectWs_one_open|]; exact Ht.
  - destruct (nth_error (loads r) j) as [id|]; [|exact H].
    cbn [snd]; apply connectWs_one_open; apply (one_open_ext r); auto.
  - unfold switchCrab; destruct (String.eqb id (activeCrab v)); cbn [snd];
      [exact H | apply (one_open_ext r); auto].
  - unfold tick; destruct (ticking r); [destruct (Z.leb _ 1)|]; cbn [snd];
      try exact H; apply (one_open_ext r); auto.
Qed.

Lemma step_one_open s e : one_open (snd s) -> one_open (snd (step s e)).
Proof.
  destruct s as [v r]; intros H; unfold step.
  pose proof (handle_one_open v r e H) as Hh.
  destruct (handle (v, r) e) as [v' r']; cbn [snd] in *.
  destruct (commit_refs v' r') as (Hc & Hw & _); exact (one_open_ext _ _ Hh Hc Hw).
Qed.

Lemma fold_one_open evs : forall s, one_open (snd s) -> one_open (snd (fold_left step evs s)).
Proof. induction evs as [|e evs IH]; intros s H; [exact H | apply IH, step_one_open, H]. Qed.

Lemma run_one_open evs : one_open (snd (run evs)).
Proof.
  apply fold_one_open; intros k c H; destruct k; discriminate H.
Qed.

Lemma switch_keeps_channels v r id :
  chans (snd (step (v, r) (Switch id))) = chans r /\
  wsRef (snd (step (v, r) (Switch id))) = wsRef r.
Proof.
  unfold step; cbn [handle]; unfold switchCrab.
  destruct (String.eqb id (activeCrab v)); cbn [snd];
    match goal with |- context [commit ?a ?b] =>
      destruct (commit_refs a b) as (Hc & Hw & _); rewrite Hc, Hw; auto
    end.
Qed.

(* ------------------------------------------------------------------ *)
(** ** The countdown *)

Lemma commit_same v r : conversing v = effConversing r -> commit v r = r.
Proof. unfold commit; intros H; rewrite H, Bool.eqb_reflx; reflexivity. Qed.

Lemma step_eff s e : effConversing (snd (step s e)) = conversing (fst (step s e)).
Proof.
  destruct s as [v0 r0]; unfold step; destruct (handle (v0, r0) e) as [v r]; cbn [fst snd].
  unfold commit; destruct (Bool.eqb (conversing v) (effConversing r)) eqn:E;
    [apply Bool.eqb_prop in E; symmetry; exact E | reflexivity].
Qed.

Lemma run_eff evs : effConversing (snd (run evs)) = conversing (fst (run evs)).
Proof.
  unfold run; assert (G : forall s, effConversing (snd s) = conversing (fst s) ->
    effConversing (snd (fold_left step evs s)) = conversing (fst (fold_left step evs s))).
  { induction evs as [|e evs IH]; intros s H; [exact H | apply IH, step_eff]. }
  apply G; reflexivity.
Qed.



Lemma ticks_stopped n : forall v r,
  ticking r = false -> effConversing r = conversing v ->
  fold_left step (repeat Tick n) (v, r) = (v, r).
Proof.
  induction n as [|n IH]; intros v r Ht He; [reflexivity|].
  cbn [repeat fold_left]; unfold step at 2; cbn [handle]; unfold tick; rewrite Ht.
  rewrite commit_same by (symmetry; exact He); apply IH; assumption.
Qed.


Lemma commit_chans v r : chans (commit v r) = chans r.
Proof. apply commit_refs. Qed.


(* ------------------------------------------------------------------ *)
(** ** The two records of the end-to-end example *)

Lemma process_record1 ins :
  process_call None 0 0 (record1 ins) = Some (transcript1 ins, 2).
Proof. vm_compute; reflexivity. Qed.

Lemma process_record2 ins1 ins2 :
  process_call (Some (record1 ins1)) 1 2 (record2 ins2) =
  Some ((if String.eqb (strip ins2) (strip ins1) then [] else [prompt_of (record2 ins2)])
          ++ [left_line "hi"; left_line "ok"], 2).
Proof.
  unfold process_call; cbn -[strip].
  destruct (String.eqb (strip ins2) (strip ins1)); reflexivity.
Qed.

(* ------------------------------------------------------------------ *)
(** ** Specification claims *)

(** C1: every output item of every record is classified exactly once:
    the agent-side lines of the transcript are, in order, the rendered
    output items of record 1, then of record 2, and so on; the [seen]
    cursor plays no part in it. *)
Theorem reconcile_outputs_exactly_once cs ms e :
  reconcile cs = Some (ms, e) ->
  exists outss,
    Forall2 (fun c outs => render_all renderOutputItem (phase_of c) (output c) = Some outs)
      cs outss /\
    filter is_right ms = concat outss.
Proof. apply reconcile_from_outputs. Qed.

Lemma reconcile_outputs_exactly_once_witness :
  reconcile (log12 "I") = Some (transcript1 "I" ++ [left_line "hi"; left_line "ok"], 2) /\
  exists outss,
    Forall2 (fun c outs => render_all renderOutputItem (phase_of c) (output c) = Some outs)
      (log12 "I") outss /\
    filter is_right (transcript1 "I" ++ [left_line "hi"; left_line "ok"]) = concat outss.
Proof.
  assert (H : reconcile (log12 "I") = Some (transcript1 "I" ++ [left_line "hi"; left_line "ok"], 2))
    by (vm_compute; reflexivity).
  split; [exact H | exact (reconcile_outputs_exactly_once _ _ _ H)].
Defined.

(** C2: reset detection.  For a record [c] processed with cursor [seen]:
    when [length (input c) <= seen] all of its input items are rendered,
    otherwise those from index [seen] on; all of its output items are
    rendered; and the next record is processed with the cursor
    [length (input c) + length (output c)]. *)
Theorem reconcile_reset prev i seen c cs ms e :
  reconcile_from prev i seen (c :: cs) = Some (ms, e) ->
  exists hdr ins outs rest,
    ms = hdr ++ ins ++ outs ++ rest /\
    Forall (fun m => side m = System) hdr /\
    render_all renderInputItem (phase_of c)
      (if Nat.leb (length (input c)) seen then input c else skipn seen (input c)) = Some ins /\
    render_all renderOutputItem (phase_of c) (output c) = Some outs /\
    reconcile_from (Some c) (S i) (length (input c) + length (output c)) cs = Some (rest, e).
Proof.
  intros H; apply reconcile_from_cons in H as (ms1 & s1 & ms2 & Hp & Hr & ->).
  apply process_call_spec in Hp as (hdr & ins & outs & -> & Hh & _ & Hi & Ho & ->).
  exists hdr, ins, outs, ms2.
  split; [rewrite !app_assoc; reflexivity|].
  split; [exact Hh|].
  split; [revert Hi; destruct (Nat.leb _ _); intros Hi; exact Hi|].
  split; assumption.
Qed.

Lemma reconcile_reset_witness :
  reconcile_from (Some (record1 "I")) 1 2 [record2 "I"] = Some ([left_line "hi"; left_line "ok"], 2) /\
  exists hdr ins outs rest,
    [left_line "hi"; left_line "ok"] = hdr ++ ins ++ outs ++ rest /\
    Forall (fun m => side m = System) hdr /\
    render_all renderInputItem (phase_of (record2 "I"))
      (if Nat.leb (length (input (record2 "I"))) 2 then input (record2 "I")
       else skipn 2 (input (record2 "I"))) = Some ins /\
    render_all renderOutputItem (phase_of (record2 "I")) (output (record2 "I")) = Some outs /\
    reconcile_from (Some (record2 "I")) 2
      (length (input (record2 "I")) + length (output (record2 "I"))) [] = Some (rest, 2).
Proof.
  assert (H : reconcile_from (Some (record1 "I")) 1 2 [record2 "I"] =
              Some ([left_line "hi"; left_line "ok"], 2)) by (vm_compute; reflexivity).
  split; [exact H | exact (reconcile_reset _ _ _ _ _ _ _ H)].
Defined.

(** C3 (counterexample): the divider of a normal record is decided by
    the record just before it, whatever its phase: in the log
    normal "A", dream "B", normal "A" the third record gets a second
    divider although the previous normal record has the same
    instructions. *)
Lemma system_divider_cex :
  option_map (fun r => filter is_prompt (fst r))
    (reconcile [normal_call "A"; dream_call "B"; normal_call "A"]) =
  Some [prompt_of (normal_call "A"); prompt_of (normal_call "A")].
Proof. vm_compute; reflexivity. Qed.

(** C3 (amended): the system dividers of a transcript are those of
    [expected_prompts]: one for a normal record that is the first one or
    whose stripped instructions differ from those of the record just
    before it (of any phase).  Two consecutive normal records whose
    instructions differ only in the text of a timestamp line
    ["Right now it is ...\n"] (the first one, starting a line) get one
    divider. *)
Theorem system_divider_rule :
  (forall cs ms e, reconcile cs = Some (ms, e) -> filter is_prompt ms = expected_prompts None 0 cs) /\
  (forall c1 c2 p t1 t2 q ms e,
     phase_of c1 = Normal -> phase_of c2 = Normal ->
     instructions c1 = (p ++ time_key ++ t1 ++ nl ++ q)%string ->
     instructions c2 = (p ++ time_key ++ t2 ++ nl ++ q)%string ->
     contains time_key p = false -> line_start p = true ->
     t1 <> EmptyString -> t2 <> EmptyString ->
     no_terminator t1 = true -> no_terminator t2 = true ->
     reconcile [c1; c2] = Some (ms, e) ->
     filter is_prompt ms = [prompt_of c1]).
Proof.
  split.
  - intros cs ms e; apply reconcile_from_prompts.
  - intros c1 c2 p t1 t2 q ms e H1 H2 Hi1 Hi2 Hc Hl Hn1 Hn2 Ht1 Ht2 H.
    rewrite (reconcile_from_prompts _ _ _ _ _ _ H); cbn [expected_prompts prev_instructions].
    rewrite H1, H2, Hi1, Hi2, !strip_timestamp_line by assumption.
    rewrite String.eqb_refl; reflexivity.
Qed.

Lemma system_divider_rule_witness :
  reconcile [normal_call (timed_prompt "10:00"); normal_call (timed_prompt "10:05")] =
    Some ([prompt_of (normal_call (timed_prompt "10:00"))], 0) /\
  filter is_prompt [prompt_of (normal_call (timed_prompt "10:00"))] =
    [prompt_of (normal_call (timed_prompt "10:00"))].
Proof.
  assert (H : reconcile [normal_call (timed_prompt "10:00"); normal_call (timed_prompt "10:05")] =
              Some ([prompt_of (normal_call (timed_prompt "10:00"))], 0)) by (vm_compute; reflexivity).
  split; [exact H|].
  apply (proj2 system_divider_rule (normal_call (timed_prompt "10:00"))
           (normal_call (timed_prompt "10:05")) ("You are a crab." ++ nl)%string
           "10:00" "10:05" "Be kind." _ 0);
    try reflexivity; try discriminate; exact H.
Defined.

(** A time text ending in U+2028 (UTF-8 E2 80 A8) is not matched by
    [.+\n]: the timestamp lines stay in the instructions and two records
    differing there get a divider each. *)
Definition line_separator : string :=
  String "226"%char (String "128"%char (String "168"%char EmptyString)).

Lemma line_separator_keeps_timestamp :
  option_map (fun p => length (filter is_prompt (fst p)))
    (reconcile [normal_call (time_key ++ "a" ++ line_separator ++ nl)%string;
                normal_call (time_key ++ "b" ++ line_separator ++ nl)%string]) = Some 2.
Proof. vm_compute; reflexivity. Qed.

(** C4 (counterexample): a user item whose content list is empty is not
    dropped but shown as ["[image]"]; with two text parts the line shows
    the last one, not the first. *)
Lemma renderInputItem_cex :
  renderInputItem (user_parts []) Normal = Some (Some (mkMsg Left (JStr "[image]") Normal JUndef false)) /\
  renderInputItem (user_parts [text_part "first"; text_part "second"]) Normal =
    Some (Some (mkMsg Left (JStr "second") Normal JUndef false)).
Proof. split; vm_compute; reflexivity. Qed.

(** C4 (amended): a user item whose content is a list of parts is never
    dropped: its line has the text of the LAST ["input_text"] part
    (["[image]"] when that text is falsy or there is no such part) and
    the image of the LAST ["input_image"] part; a user item with plain
    string content maps to a subject-side line with that text. *)
Theorem renderInputItem_user item ph :
  obj_get item "role" = JStr "user" ->
  (forall parts,
     obj_get item "content" = JArr (map JObj parts) ->
     renderInputItem item ph =
       Some (Some (mkMsg Left
         (if truthy (last_field "input_text" "text" parts (JStr ""))
          then last_field "input_text" "text" parts (JStr "") else JStr "[image]")
         ph (last_field "input_image" "image_url" parts JUndef) false))) /\
  (forall s,
     obj_get item "content" = JStr s ->
     renderInputItem item ph = Some (Some (mkMsg Left (JStr s) ph JUndef false))).
Proof.
  intros Hr; unfold renderInputItem; rewrite Hr.
  change (is_str (JStr "user") "user") with true; cbv iota zeta.
  split; [intros parts Hc | intros s Hc]; rewrite Hc; [|reflexivity].
  cbv iota; rewrite scan_parts_objs; reflexivity.
Qed.

Lemma renderInputItem_user_witness :
  obj_get (user_parts [text_part "hi"; image_part "u"]) "role" = JStr "user" /\
  obj_get (user_parts [text_part "hi"; image_part "u"]) "content" =
    JArr (map JObj [text_part "hi"; image_part "u"]) /\
  renderInputItem (user_parts [text_part "hi"; image_part "u"]) Normal =
    Some (Some (mkMsg Left (JStr "hi") Normal (JStr "u") false)).
Proof.
  split; [reflexivity|]; split; [reflexivity|].
  exact (proj1 (renderInputItem_user (user_parts [text_part "hi"; image_part "u"]) Normal eq_refl)
           [text_part "hi"; image_part "u"] eq_refl).
Defined.

(** C5: the end-to-end example.  After record 1 the transcript is
    [system(instructions), subject("hi"), agent("hello", isRespond)] and
    [seen = 2]; record 2 (two input items, [seen = 2]) resets the cursor,
    both its input items are rendered, and [seen] stays 2.  (Record 2
    gets a divider of its own only if its stripped instructions differ.) *)
Theorem end_to_end_example ins1 ins2 :
  reconcile [record1 ins1] = Some (transcript1 ins1, 2) /\
  reconcile [record1 ins1; record2 ins2] =
    Some (transcript1 ins1
          ++ (if String.eqb (strip ins2) (strip ins1) then [] else [prompt_of (record2 ins2)])
          ++ [left_line "hi"; left_line "ok"], 2).
Proof.
  unfold reconcile; cbn [reconcile_from]; rewrite process_record1; cbn [obind].
  split; [rewrite app_nil_r; reflexivity|].
  rewrite process_record2; cbn [obind reconcile_from]; rewrite app_nil_r; reflexivity.
Qed.

(** C6 (counterexample): a position received from the previous entity's
    socket is still shown after switching to another entity. *)
Lemma switch_reset_cex :
  activeCrab (fst (run (connect_a ++ [WsMessage 0 (MsgPosition 1 2); Switch "b"]))) = "b" /\
  position (fst (run (connect_a ++ [WsMessage 0 (MsgPosition 1 2); Switch "b"]))) = (1, 2)%Z.
Proof. split; vm_compute; reflexivity. Qed.

(** C6 (amended): switching to another entity immediately clears the
    conversation state, the countdown, the alert, the activity and the
    unseen flag, and makes it the active one; the position, the coarse
    state and the focus-mode flag keep their previous values. *)
Theorem switch_resets_view v r id :
  id <> activeCrab v ->
  conversing (fst (step (v, r) (Switch id))) = false /\
  countdown (fst (step (v, r) (Switch id))) = 0%Z /\
  alert (fst (step (v, r) (Switch id))) = false /\
  activity (fst (step (v, r) (Switch id))) = ("idle", "") /\
  hasNew (fst (step (v, r) (Switch id))) = false /\
  activeCrab (fst (step (v, r) (Switch id))) = id /\
  position (fst (step (v, r) (Switch id))) = position v /\
  crabState (fst (step (v, r) (Switch id))) = crabState v /\
  focusMode (fst (step (v, r) (Switch id))) = focusMode v.
Proof.
  intros H; unfold step; cbn [handle]; unfold switchCrab.
  destruct (String.eqb_spec id (activeCrab v)) as [E|_]; [contradiction|].
  destruct (find _ _); cbn; repeat split.
Qed.

Lemma switch_resets_view_witness :
  "b" <> activeCrab (fst (run connect_a)) /\
  conversing (fst (step (fst (run connect_a), snd (run connect_a)) (Switch "b"))) = false /\
  countdown (fst (step (fst (run connect_a), snd (run connect_a)) (Switch "b"))) = 0%Z /\
  alert (fst (step (fst (run connect_a), snd (run connect_a)) (Switch "b"))) = false /\
  activity (fst (step (fst (run connect_a), snd (run connect_a)) (Switch "b"))) = ("idle", "") /\
  hasNew (fst (step (fst (run connect_a), snd (run connect_a)) (Switch "b"))) = false /\
  activeCrab (fst (step (fst (run connect_a), snd (run connect_a)) (Switch "b"))) = "b" /\
  position (fst (step (fst (run connect_a), snd (run connect_a)) (Switch "b"))) =
    position (fst (run connect_a)) /\
  crabState (fst (step (fst (run connect_a), snd (run connect_a)) (Switch "b"))) =
    crabState (fst (run connect_a)) /\
  focusMode (fst (step (fst (run connect_a), snd (run connect_a)) (Switch "b"))) =
    focusMode (fst (run connect_a)).
Proof.
  assert (H : "b" <> activeCrab (fst (run connect_a))) by (vm_compute; discriminate).
  split; [exact H | exact (switch_resets_view _ (snd (run connect_a)) _ H)].
Defined.

(** C7 (counterexample): entity [a]'s socket closes, the user switches to
    [b], and [a]'s pending reconnect timer then opens a new socket for
    [a]: the switch did not make the closed socket stale. *)
Lemma channel_switch_cex :
  activeCrab (fst (run (closed_then_switched ++ [TimerFire 0]))) = "b" /\
  chans (snd (run (closed_then_switched ++ [TimerFire 0]))) =
    [mkChan "a" false false; mkChan "a" true true].
Proof. split; vm_compute; reflexivity. Qed.

(** C7 (amended): in every run at most one socket is open; a reconnect
    timer opens a socket exactly when the socket that closed is still
    [wsRef.current], and a switch leaves [wsRef.current] and the sockets
    unchanged (so a timer pending from before the switch still
    reconnects the previous entity, until the new bootstrap replaces
    that socket). *)
Theorem channel_switch_safety :
  (forall evs k1 k2 c1 c2,
     nth_error (chans (snd (run evs))) k1 = Some c1 -> ch_open c1 = true ->
     nth_error (chans (snd (run evs))) k2 = Some c2 -> ch_open c2 = true -> k1 = k2) /\
  (forall v r j k id,
     nth_error (timers r) j = Some (k, id) -> wsRef r <> Some k ->
     chans (snd (step (v, r) (TimerFire j))) = chans r) /\
  (forall v r j k id,
     nth_error (timers r) j = Some (k, id) -> wsRef r = Some k ->
     chans (snd (step (v, r) (TimerFire j))) = chans (connectWs id r)) /\
  (forall v r id,
     chans (snd (step (v, r) (Switch id))) = chans r /\
     wsRef (snd (step (v, r) (Switch id))) = wsRef r).
Proof.
  split; [|split; [|split]].
  - intros evs k1 k2 c1 c2 H1 H2 H3 H4.
    pose proof (run_one_open evs) as H.
    pose proof (H _ _ H1 H2) as E1; pose proof (H _ _ H3 H4) as E2.
    rewrite E1 in E2; injection E2 as E; exact E.
  - intros v r j k id Hj Hw; unfold step; cbn [handle]; rewrite Hj; cbn [wsRef set_timers].
    destruct (wsRef r) as [w|] eqn:Ew.
    + destruct (Nat.eqb_spec k w) as [->|_]; [contradiction|].
      cbn [snd]; rewrite commit_chans; reflexivity.
    + cbn [snd]; rewrite commit_chans; reflexivity.
  - intros v r j k id Hj Hw; unfold step; cbn [handle]; rewrite Hj; cbn [wsRef set_timers].
    rewrite Hw, Nat.eqb_refl; cbn [snd]; rewrite commit_chans.
    unfold connectWs; cbn [chans wsRef set_wsRef set_chans set_timers]; rewrite Hw; reflexivity.
  - intros v r id; apply switch_keeps_channels.
Qed.

Lemma channel_switch_safety_witness :
  (nth_error (chans (snd (run connect_a))) 0 = Some (mkChan "a" true true) /\
   ch_open (mkChan "a" true true) = true /\ (0 = 0)%nat) /\
  (nth_error (timers (snd (run b_connected))) 0 = Some (0, "a") /\
   wsRef (snd (run b_connected)) <> Some 0 /\
   chans (snd (step (fst (run b_connected), snd (run b_connected)) (TimerFire 0))) =
     chans (snd (run b_connected))) /\
  (nth_error (timers (snd (run closed_then_switched))) 0 = Some (0, "a") /\
   wsRef (snd (run closed_then_switched)) = Some 0 /\
   chans (snd (step (fst (run closed_then_switched), snd (run closed_then_switched)) (TimerFire 0))) =
     chans (connectWs "a" (snd (run closed_then_switched)))).
Proof.
  destruct channel_switch_safety as (P1 & P2 & P3 & _).
  assert (H1 : nth_error (chans (snd (run connect_a))) 0 = Some (mkChan "a" true true))
    by (vm_compute; reflexivity).
  assert (H2 : nth_error (timers (snd (run b_connected))) 0 = Some (0, "a"))
    by (vm_compute; reflexivity).
  assert (H3 : wsRef (snd (run b_connected)) <> Some 0) by (vm_compute; discriminate).
  assert (H4 : nth_error (timers (snd (run closed_then_switched))) 0 = Some (0, "a"))
    by (vm_compute; reflexivity).
  assert (H5 : wsRef (snd (run closed_then_switched)) = Some 0) by (vm_compute; reflexivity).
  split; [split; [exact H1 | split; [reflexivity | exact (P1 _ _ _ _ _ H1 eq_refl H1 eq_refl)]]|].
  split; [split; [exact H2 | split; [exact H3 | exact (P2 _ _ _ _ _ H2 H3)]]|].
  split; [exact H4 | split; [exact H5 | exact (P3 _ _ _ _ _ H4 H5)]].
Defined.







(** C10 (counterexample): the arguments ["null"] parse without throwing,
    yet the line shows the raw argument string: reading [.message] of
    [null] throws inside the [try]. *)
Lemma respond_fallback_cex :
  JSON_parse "null" = Some JNull /\
  renderOutputItem (respond_call "null") Normal =
    Some (Some (mkMsg Right (JStr "null") Normal JUndef true)).
Proof. split; vm_compute; reflexivity. Qed.

(** C10 (amended): for a ["respond"] call with string arguments [s]:
    when [s] parses to an object, the line is an agent-side [isRespond]
    line whose text is that object's ["message"] field ([undefined] when
    absent); the raw string [s] is shown when parsing throws or when [s]
    parses to [null]. *)
Theorem respond_fallback it ph s :
  obj_get it "type" = JStr "function_call" ->
  obj_get it "name" = JStr "respond" ->
  obj_get it "arguments" = JStr s ->
  (forall fs, JSON_parse s = Some (JObj fs) ->
     renderOutputItem it ph = Some (Some (mkMsg Right (obj_get fs "message") ph JUndef true))) /\
  (JSON_parse s = None \/ JSON_parse s = Some JNull ->
     renderOutputItem it ph = Some (Some (mkMsg Right (JStr s) ph JUndef true))).
Proof.
  intros Ht Hn Ha; unfold renderOutputItem; rewrite Ht, Hn, Ha.
  change (is_str (JStr "function_call") "message") with false.
  change (is_str (JStr "function_call") "function_call") with true.
  change (is_str (JStr "respond") "respond") with true.
  cbv iota zeta; unfold respond_message, parse_args.
  split; [intros fs Hp | intros [Hp|Hp]]; rewrite Hp; reflexivity.
Qed.

Lemma respond_fallback_witness :
  JSON_parse "{}" = Some (JObj []) /\
  renderOutputItem (respond_call "{}") Normal = Some (Some (mkMsg Right JUndef Normal JUndef true)).
Proof.
  assert (H : JSON_parse "{}" = Some (JObj [])) by (vm_compute; reflexivity).
  split; [exact H|].
  exact (proj1 (respond_fallback (respond_call "{}") Normal "{}" eq_refl eq_refl eq_refl) [] H).
Defined.

(* ------------------------------------------------------------------ *)
(** ** Further properties of the code *)

(** *** Rendering of output items *)

Lemma render_all_none (r : obj -> Phase -> option (option Msg)) ph it xs :
  In it xs -> r it ph = None -> render_all r ph xs = None.
Proof.
  induction xs as [|x xs IH]; cbn [In render_all]; [contradiction|].
  intros [<-|Hin] H.
  - rewrite H; reflexivity.
  - destruct (r x ph); cbn [obind]; [|reflexivity].
    rewrite (IH Hin H); reflexivity.
Qed.

Lemma map_throw_none (f : jv -> option jv) x xs :
  In x xs -> f x = None -> map_throw f xs = None.
Proof.
  induction xs as [|y xs IH]; cbn [In map_throw]; [contradiction|].
  intros [<-|Hin] H.
  - rewrite H; reflexivity.
  - destruct (f y); cbn [obind]; [|reflexivity].
    rewrite (IH Hin H); reflexivity.
Qed.

Lemma reconcile_from_none c cs :
  In c cs -> render_all renderOutputItem (phase_of c) (output c) = None ->
  forall prev i seen, reconcile_from prev i seen cs = None.
Proof.
  induction cs as [|c' cs IH]; cbn [In]; [contradiction|].
  intros [<-|Hin] H prev i seen; cbn [reconcile_from].
  - destruct (process_call prev i seen c') as [[ms s]|] eqn:Hp; cbn [obind]; [|reflexivity].
    apply process_call_spec in Hp as (hdr & ins & outs & _ & _ & _ & _ & Ho & _).
    rewrite H in Ho; discriminate Ho.
  - destruct (process_call prev i seen c') as [[ms s]|]; cbn [obind]; [|reflexivity].
    rewrite (IH Hin H); reflexivity.
Qed.






(** *** [strip] keeps what its regular expressions do not match *)

Lemma contains_skip k n : forall s, contains k s = false -> contains k (skip n s) = false.
Proof.
  induction n as [|n IH]; intros s H; [exact H|].
  destruct s as [|c s]; [exact H|].
  cbn [skip]; apply IH; cbn [contains] in H; apply orb_false_iff in H; apply H.
Qed.

Lemma contains_prefix_false k s : contains k s = false -> String.prefix k s = false.
Proof.
  destruct s as [|c s]; cbn [contains]; intros H; apply orb_false_iff in H; apply H.
Qed.

Lemma find_nl_hashes_none s : contains (nl ++ "##")%string s = false -> find_nl_hashes s = None.
Proof.
  induction s as [|c s IH]; intros H.
  - cbn [find_nl_hashes]; rewrite (contains_prefix_false _ _ H); reflexivity.
  - cbn [find_nl_hashes]; rewrite (contains_prefix_false _ _ H).
    cbn [contains] in H; apply orb_false_iff in H as [_ H]; rewrite (IH H); reflexivity.
Qed.

(** Both headers are 16 or 17 characters long: when no [\n##] follows
    the first 16 characters, [match_mood] fails. *)
Lemma match_mood_none_after t :
  contains (nl ++ "##")%string (skip 16 t) = false -> match_mood t = None.
Proof.
  intros H; unfold match_mood.
  destruct (String.prefix ("## Current mood" ++ nl) t).
  - rewrite (find_nl_hashes_none _ H); reflexivity.
  - destruct (String.prefix ("## Current focus" ++ nl) t); [|reflexivity].
    change 17 with (16 + 1); rewrite skip_add.
    rewrite (find_nl_hashes_none _ (contains_skip _ 1 _ H)); reflexivity.
Qed.

Lemma match_mood_hash c t : c <> "#"%char -> match_mood (String c t) = None.
Proof.
  intros Hc; unfold match_mood.
  assert (E : forall x, String.prefix (String "#" x) (String c t) = false).
  { intros x; cbn [String.prefix]; destruct (ascii_dec "#" c) as [e|]; [congruence | reflexivity]. }
  change ("## Current mood" ++ nl)%string with (String "#" ("# Current mood" ++ nl)).
  change ("## Current focus" ++ nl)%string with (String "#" ("# Current focus" ++ nl)).
  rewrite !E; reflexivity.
Qed.

Lemma replace_first_id m s : (forall n, m (skip n s) = None) -> replace_first m s = s.
Proof.
  induction s as [|c s IH]; intros H; cbn [replace_first].
  - specialize (H 0); cbn [skip] in H; rewrite H; reflexivity.
  - pose proof (H 0) as H0; cbn [skip] in H0; rewrite H0.
    f_equal; apply IH; intros n; exact (H (S n)).
Qed.

Lemma replace_mood_prefix p : forall r,
  contains "#" p = false ->
  replace_first match_mood (p ++ r) = (p ++ replace_first match_mood r)%string.
Proof.
  induction p as [|c p IH]; intros r H; [reflexivity|].
  cbn [contains] in H; apply orb_false_iff in H as [H1 H2].
  cbn [append replace_first]; rewrite match_mood_hash; [rewrite (IH r H2); reflexivity|].
  intros ->; cbn [String.prefix] in H1.
  destruct (ascii_dec "#" "#") as [_|n]; [destruct p; discriminate H1 | exact (n eq_refl)].
Qed.

Lemma replace_mood_tail q :
  contains (nl ++ "##")%string q = false ->
  replace_first match_mood ("## Current mood" ++ nl ++ q)%string = ("## Current mood" ++ nl ++ q)%string.
Proof.
  intros Hq; apply replace_first_id; intros n; apply match_mood_none_after.
  rewrite <- skip_add, PeanoNat.Nat.add_comm, skip_add.
  change 16 with (15 + 1); rewrite skip_add.
  change 15 with (String.length "## Current mood"); rewrite skip_app.
  change 1 with (String.length nl); rewrite skip_app.
  apply contains_skip; exact Hq.
Qed.

Lemma replace_time_id s : contains time_key s = false -> replace_first match_time s = s.
Proof.
  intros H; apply replace_first_id; intros n; unfold match_time.
  rewrite (contains_prefix_false _ _ (contains_skip _ n _ H)); reflexivity.
Qed.

(** *** Appending records, dividers and tool loops *)

Lemma reconcile_from_app cs1 : forall cs2 prev i seen ms e,
  reconcile_from prev i seen (cs1 ++ cs2) = Some (ms, e) ->
  exists ms1 e1 ms2,
    reconcile_from prev i seen cs1 = Some (ms1, e1) /\
    reconcile_from (last_call prev cs1) (i + length cs1) e1 cs2 = Some (ms2, e) /\
    ms = ms1 ++ ms2.
Proof.
  induction cs1 as [|c cs1 IH]; intros cs2 prev i seen ms e H.
  - exists [], seen, ms; split; [reflexivity|]; split; [|reflexivity].
    rewrite PeanoNat.Nat.add_0_r; exact H.
  - cbn [app] in H; apply reconcile_from_cons in H as (ms1 & s1 & ms2 & Hp & Hr & ->).
    destruct (IH _ _ _ _ _ _ Hr) as (ms1' & e1 & ms2' & Hr1 & Hr2 & ->).
    exists (ms1 ++ ms1'), e1, ms2'; split; [|split; [|apply app_assoc]].
    + cbn [reconcile_from]; rewrite Hp; cbn [obind]; rewrite Hr1; reflexivity.
    + unfold last_call; cbn [fold_left].
      replace (i + length (c :: cs1)) with (S i + length cs1) by (cbn [length]; lia).
      exact Hr2.
Qed.

Lemma inputs_side ph xs ms :
  render_all renderInputItem ph xs = Some ms -> Forall (fun m => side m = Left) ms.
Proof. apply render_all_Forall; intros it m; apply renderInputItem_left. Qed.

Lemma outputs_side ph xs ms :
  render_all renderOutputItem ph xs = Some ms -> Forall (fun m => side m = Right) ms.
Proof. apply render_all_Forall; intros it m; apply renderOutputItem_right. Qed.

Lemma filter_side (f : Msg -> bool) s ms :
  Forall (fun m => side m = s) ms -> (forall m, side m = s -> f m = false) -> filter f ms = [].
Proof.
  intros HF Hf; apply filter_nil_Forall; eapply Forall_impl; [|exact HF]; exact Hf.
Qed.

Lemma process_call_dividers prev i seen c ms s :
  process_call prev i seen c = Some (ms, s) ->
  filter (is_divider Dream) ms =
    (if flag (is_dream c)
        && (Nat.eqb i 0 || negb (match prev with Some p => flag (is_dream p) | None => false end))
     then [reflecting_line] else []) /\
  filter (is_divider Planning) ms =
    (if flag (is_planning c)
        && (Nat.eqb i 0 || negb (match prev with Some p => flag (is_planning p) | None => false end))
     then [planning_line] else []).
Proof.
  unfold process_call; cbv zeta; intros H.
  destruct (render_all renderInputItem _ _) as [ins|] eqn:Hi; cbn [obind] in H; [|discriminate H].
  destruct (render_all renderOutputItem _ _) as [outs|] eqn:Ho; cbn [obind] in H; [|discriminate H].
  injection H as <- _.
  apply inputs_side in Hi; apply outputs_side in Ho.
  rewrite !filter_app, !(filter_side (is_divider _) Left ins Hi),
    !(filter_side (is_divider _) Right outs Ho)
    by (intros m Hm; unfold is_divider; rewrite Hm; reflexivity).
  rewrite !app_nil_r.
  repeat match goal with |- context [if ?b then _ else _] => destruct b end;
    split; reflexivity.
Qed.

Lemma reconcile_from_dividers cs : forall prev i seen ms e,
  reconcile_from prev i seen cs = Some (ms, e) ->
  filter (is_divider Dream) ms =
    repeat reflecting_line
      (runs (if Nat.eqb i 0 then false
             else match prev with Some p => flag (is_dream p) | None => false end)
         (map (fun c => flag (is_dream c)) cs)) /\
  filter (is_divider Planning) ms =
    repeat planning_line
      (runs (if Nat.eqb i 0 then false
             else match prev with Some p => flag (is_planning p) | None => false end)
         (map (fun c => flag (is_planning c)) cs)).
Proof.
  induction cs as [|c cs IH]; intros prev i seen ms e H.
  - cbn in H; injection H as <- <-; split; reflexivity.
  - apply reconcile_from_cons in H as (ms1 & s1 & ms2 & Hp & Hr & ->).
    apply process_call_dividers in Hp as [Hd Hq].
    destruct (IH _ _ _ _ _ Hr) as [Id Iq].
    change (Nat.eqb (S i) 0) with false in Id, Iq; cbv iota beta in Id, Iq.
    rewrite !filter_app, Hd, Hq, Id, Iq; cbn [map runs]; rewrite !repeat_app.
    split; f_equal;
      destruct (Nat.eqb i 0), prev as [p|];
      first [destruct (flag (is_dream c)) | idtac];
      first [destruct (flag (is_planning c)) | idtac];
      try destruct (flag (is_dream p)); try destruct (flag (is_planning p)); reflexivity.
Qed.

Lemma skipn_app_exact {A : Type} (l1 l2 : list A) : skipn (length l1) (l1 ++ l2) = l2.
Proof. induction l1 as [|x l1 IH]; cbn; [reflexivity | exact IH]. Qed.

Lemma reconcile_from_tool_loop cs : forall prev i nws ms e,
  reconcile_from (Some prev) i (length (input prev) + length (output prev)) cs = Some (ms, e) ->
  grows prev cs nws ->
  exists lss,
    Forall2 (fun cn ls => render_all renderInputItem (phase_of (fst cn)) (snd cn) = Some ls)
      (combine cs nws) lss /\
    filter is_left ms = concat lss.
Proof.
  induction cs as [|c cs IH]; intros prev i nws ms e H Hg.
  - destruct nws; [|contradiction Hg].
    cbn in H; injection H as <- <-; exists []; split; [constructor | reflexivity].
  - destruct nws as [|nw nws]; [contradiction Hg|].
    destruct Hg as (Hne & Hin & Hg).
    apply reconcile_from_cons in H as (ms1 & s1 & ms2 & Hp & Hr & ->).
    apply process_call_spec in Hp as (hdr & ins & outs & -> & Hh & _ & Hi & Ho & ->).
    rewrite Hin, (proj2 (PeanoNat.Nat.leb_gt _ _)) in Hi
      by (rewrite !length_app; destruct nw; [contradiction | cbn [length]; lia]).
    cbv iota in Hi; rewrite app_assoc, <- length_app, skipn_app_exact in Hi.
    destruct (IH _ _ _ _ _ Hr Hg) as (lss & HF & Hf).
    exists (ins :: lss); split; [constructor; assumption|].
    rewrite !filter_app, Hf.
    rewrite (filter_side is_left System hdr Hh) by (intros m Hm; unfold is_left; rewrite Hm; reflexivity).
    rewrite (filter_side is_left Right outs (outputs_side _ _ _ Ho))
      by (intros m Hm; unfold is_left; rewrite Hm; reflexivity).
    rewrite (filter_id_Forall is_left ins)
      by (eapply Forall_impl; [|exact (inputs_side _ _ _ Hi)]; intros m Hm; unfold is_left; rewrite Hm; reflexivity).
    cbn [app concat]; rewrite app_nil_r; reflexivity.
Qed.

(** *** The countdown interval and the reconnect timers *)

Lemma handle_countdown v r e :
  (conversing v = false -> countdown v = 0%Z) -> (ticking r = true -> conversing v = true) ->
  effConversing (snd (handle (v, r) e)) = effConversing r /\
  (ticking (snd (handle (v, r) e)) = true -> ticking r = true) /\
  (conversing (fst (handle (v, r) e)) = false -> countdown (fst (handle (v, r) e)) = 0%Z).
Proof.
  intros H1 H2.
  destruct (ticking r) eqn:Ht; [specialize (H2 eq_refl) | clear H2].
  - destruct e as [l|l|k m|k|j|j b|id|]; cbn [handle];
      unfold onmessage, switchCrab, tick, connectWs, apply_bootstrap; cbv zeta;
      repeat match goal with |- context [match ?x with _ => _ end] => destruct x eqn:? end;
      cbn in *; repeat split; intros; try congruence; auto.
  - destruct e as [l|l|k m|k|j|j b|id|]; cbn [handle];
      unfold onmessage, switchCrab, tick, connectWs, apply_bootstrap; cbv zeta;
      repeat match goal with |- context [match ?x with _ => _ end] => destruct x eqn:? end;
      cbn in *; repeat split; intros; try congruence; auto.
Qed.

Lemma step_countdown_ok s e : countdown_ok s -> countdown_ok (step s e).
Proof.
  destruct s as [v r]; intros (He & Ht & Hc); cbn [fst snd] in *.
  destruct (handle_countdown v r e Hc Ht) as (He' & Ht' & Hc').
  split; [apply step_eff|].
  unfold step; destruct (handle (v, r) e) as [v' r'] eqn:Eh; cbn [fst snd] in *.
  unfold commit; destruct (Bool.eqb (conversing v') (effConversing r')) eqn:Eb;
    cbn [ticking set_ticking set_effConversing].
  - apply Bool.eqb_prop in Eb.
    split; [intros T; rewrite Eb, He', He; exact (Ht (Ht' T)) | exact Hc'].
  - split; [|exact Hc'].
    intros T; apply Z.ltb_lt in T; destruct (conversing v') eqn:Cv; [reflexivity|].
    rewrite (Hc' eq_refl) in T; lia.
Qed.

Lemma fold_countdown_ok evs : forall s, countdown_ok s -> countdown_ok (fold_left step evs s).
Proof. induction evs as [|e evs IH]; intros s H; [exact H | apply IH, step_countdown_ok, H]. Qed.

Lemma run_countdown_ok evs : countdown_ok (run evs).
Proof.
  apply fold_countdown_ok; unfold countdown_ok; cbn.
  split; [reflexivity | split; intros H; first [discriminate H | reflexivity]].
Qed.

Lemma NoDup_snoc {A : Type} (l : list A) x : NoDup l -> ~ In x l -> NoDup (l ++ [x]).
Proof.
  induction 1 as [|y l Hy Hl IH]; intros Hx; cbn.
  - constructor; [intros [] | constructor].
  - constructor; [|apply IH; intros H; apply Hx; right; exact H].
    intros H; apply in_app_or in H as [H|[H|[]]]; [contradiction|].
    subst; apply Hx; left; reflexivity.
Qed.

Lemma remove_nth_In {A : Type} (l : list A) : forall j x, In x (remove_nth j l) -> In x l.
Proof.
  induction l as [|y l IH]; intros [|j] x; cbn; [tauto | tauto | tauto|].
  intros [H|H]; [left; exact H | right; exact (IH j x H)].
Qed.

Lemma NoDup_map_remove_nth {A B : Type} (f : A -> B) (l : list A) : forall j,
  NoDup (map f l) -> NoDup (map f (remove_nth j l)).
Proof.
  induction l as [|y l IH]; intros [|j] H; cbn in *; [constructor | constructor | |].
  - inversion H; assumption.
  - inversion H as [|? ? Hy Hl]; subst; constructor; [|apply IH, Hl].
    intros Hin; apply Hy; apply in_map_iff in Hin as (z & <- & Hz).
    apply in_map, (remove_nth_In l j), Hz.
Qed.

Lemma closed_update (f : Chan -> Chan) l k k' c :
  (forall c, ch_open (f c) = false) -> nth_error l k = Some c -> ch_open c = false ->
  exists c', nth_error (update_nth k' f l) k = Some c' /\ ch_open c' = false.
Proof.
  intros Hf Hk Hc; rewrite nth_update_nth, Hk.
  destruct (Nat.eqb k' k); cbn [option_map]; [exists (f c) | exists c]; split; auto.
Qed.

Lemma timers_ok_ext r r' : timers_ok r -> chans r' = chans r -> timers r' = timers r -> timers_ok r'.
Proof. unfold timers_ok; intros H Hc Ht; rewrite Hc, Ht; exact H. Qed.

Lemma connectWs_timers_ok id r : timers_ok r -> timers_ok (connectWs id r).
Proof.
  unfold timers_ok, connectWs; cbv zeta; cbn [chans timers set_wsRef set_chans].
  intros [Hn Ht]; split; [exact Hn|].
  intros k id' Hin; destruct (Ht k id' Hin) as (c & Hk & Hc).
  assert (Hlt : k < length (chans r)) by (apply nth_error_Some; congruence).
  rewrite nth_error_app_last.
  destruct (wsRef r) as [w|].
  - rewrite length_update_nth.
    replace (Nat.eqb k (length (chans r))) with false by (symmetry; apply PeanoNat.Nat.eqb_neq; lia).
    apply (closed_update _ _ _ _ c); [intros; reflexivity | exact Hk | exact Hc].
  - replace (Nat.eqb k (length (chans r))) with false by (symmetry; apply PeanoNat.Nat.eqb_neq; lia).
    exists c; split; assumption.
Qed.

Lemma handle_timers_ok v r e : timers_ok r -> timers_ok (snd (handle (v, r) e)).
Proof.
  intros H; destruct e as [l|l|k m|k|j|j b|id|]; cbn [handle].
  - destruct l; cbn [snd]; [exact H | apply (timers_ok_ext r); auto].
  - exact H.
  - destruct (nth_error (chans r) k) as [c|]; [destruct (ch_open c && ch_attached c)|]; exact H.
  - destruct (nth_error (chans r) k) as [c|] eqn:Hk; [|exact H].
    destruct (ch_open c) eqn:Ho; [|exact H].
    assert (Hr' : timers_ok (set_chans (update_nth k (fun c => mkChan (ch_crab c) false (ch_attached c)) (chans r)) r)).
    { unfold timers_ok; cbn [chans timers set_chans]; split; [apply H|].
      intros k' id Hin; destruct (proj2 H k' id Hin) as (c' & Hk' & Hc').
      apply (closed_update _ _ _ _ c'); [intros; reflexivity | exact Hk' | exact Hc']. }
    destruct (_ && _); cbn [snd]; [|exact Hr'].
    unfold timers_ok; cbn [timers chans set_timers set_chans]; split.
    + rewrite map_app; apply NoDup_snoc; [apply H|]; cbn [map fst].
      intros Hin; apply in_map_iff in Hin as ([k' id] & Hk'e & Hin); cbn [fst] in Hk'e; subst k'.
      destruct (proj2 H k id Hin) as (c' & Hk' & Hc'); congruence.
    + intros k' id Hin; apply in_app_or in Hin as [Hin|[Hin|[]]]; [exact (proj2 Hr' k' id Hin)|].
      injection Hin as <- <-.
      exists (mkChan (ch_crab c) false (ch_attached c)); split; [|reflexivity].
      rewrite nth_update_nth, PeanoNat.Nat.eqb_refl, Hk; reflexivity.
  - destruct (nth_error (timers r) j) as [[k id]|]; [|exact H].
    assert (Ht : timers_ok (set_timers (remove_nth j (timers r)) r)).
    { unfold timers_ok; cbn [chans timers set_timers]; split; [apply NoDup_map_remove_nth, H|].
      intros k' id' Hin; apply (proj2 H k' id'), (remove_nth_In _ j), Hin. }
    destruct (match _ with Some k' => _ | None => false end);
      cbn [snd]; [apply connectWs_timers_ok|]; exact Ht.
  - destruct (nth_error (loads r) j) as [id|]; [|exact H].
    cbn [snd]; apply connectWs_timers_ok; apply (timers_ok_ext r); auto.
  - unfold switchCrab; destruct (String.eqb id (activeCrab v)); cbn [snd];
      [exact H | apply (timers_ok_ext r); auto].
  - unfold tick; destruct (ticking r); [destruct (Z.leb _ 1)|]; cbn [snd];
      try exact H; apply (timers_ok_ext r); auto.
Qed.

Lemma step_timers_ok s e : timers_ok (snd s) -> timers_ok (snd (step s e)).
Proof.
  destruct s as [v r]; intros H; unfold step.
  pose proof (handle_timers_ok v r e H) as Hh.
  destruct (handle (v, r) e) as [v' r']; cbn [snd] in *.
  destruct (commit_refs v' r') as (Hc & _ & Ht & _); exact (timers_ok_ext _ _ Hh Hc Ht).
Qed.

Lemma fold_timers_ok evs : forall s, timers_ok (snd s) -> timers_ok (snd (fold_left step evs s)).
Proof. induction evs as [|e evs IH]; intros s H; [exact H | apply IH, step_timers_ok, H]. Qed.

Lemma run_timers_ok evs : timers_ok (snd (run evs)).
Proof.
  apply fold_timers_ok; split; [constructor | intros k id []].
Qed.

(* ------------------------------------------------------------------ *)
(** ** Further theorems *)

(** X1: [stateLabel] always yields one of the four labels, is the
    identity on them, and [stateColor] gives a state the colour of its
    label (an unknown state is shown as "idle" in grey). *)
Theorem stateLabel_stateColor s :
  In (stateLabel s) ["thinking"; "reflecting"; "planning"; "idle"] /\
  stateLabel (stateLabel s) = stateLabel s /\
  stateColor (stateLabel s) = stateColor s.
Proof.
  unfold stateLabel, stateColor.
  destruct (String.eqb s "thinking"), (String.eqb s "reflecting"), (String.eqb s "planning");
    cbn; (split; [tauto | split; reflexivity]).
Qed.



(** X3: a ["message"] output item whose content is neither an array nor
    undefined or null, or an array holding a null or undefined part,
    throws while rendering; one such item anywhere in the log makes the
    whole reconciliation throw, so no transcript is produced. *)
Theorem malformed_message_aborts cs c it :
  In c cs -> In it (output c) ->
  obj_get it "type" = JStr "message" ->
  match obj_get it "content" with
  | JArr xs => In JNull xs \/ In JUndef xs
  | JUndef | JNull => False
  | _ => True
  end ->
  reconcile cs = None /\ messages cs = None.
Proof.
  intros Hc Hi Ht Hm.
  assert (Hr : renderOutputItem it (phase_of c) = None).
  { unfold renderOutputItem; rewrite Ht.
    change (is_str (JStr "message") "message") with true; cbv iota; unfold message_text.
    destruct (obj_get it "content") as [| |b|n|s|xs|fs]; try contradiction; try reflexivity.
    destruct Hm as [Hm|Hm]; rewrite (map_throw_none _ _ _ Hm eq_refl); reflexivity. }
  pose proof (reconcile_from_none c cs Hc (render_all_none _ _ _ _ Hi Hr) None 0 0) as E.
  unfold messages, reconcile; rewrite E; split; reflexivity.
Qed.

Lemma malformed_message_aborts_witness :
  reconcile [call_io [] [[("type", JStr "message"); ("content", JStr "hi")]]] = None /\
  messages [call_io [] [[("type", JStr "message"); ("content", JStr "hi")]]] = None.
Proof.
  apply (malformed_message_aborts _ (call_io [] [[("type", JStr "message"); ("content", JStr "hi")]])
           [("type", JStr "message"); ("content", JStr "hi")]);
    [left; reflexivity | left; reflexivity | reflexivity | exact I].
Defined.




(** X6: a tool other than ["respond"] and ["shell"] whose arguments are
    a string [a] is shown as ["[name] a"], the arguments unparsed. *)
Theorem other_tool_line it ph n a :
  obj_get it "type" = JStr "function_call" ->
  obj_get it "name" = JStr n -> n <> "respond" -> n <> "shell" ->
  obj_get it "arguments" = JStr a ->
  renderOutputItem it ph = Some (Some (mkMsg Right (JStr ("[" ++ n ++ "] " ++ a)) ph JUndef false)).
Proof.
  intros Ht Hn H1 H2 Ha; unfold renderOutputItem; rewrite Ht, Hn, Ha.
  change (is_str (JStr "function_call") "message") with false.
  change (is_str (JStr "function_call") "function_call") with true.
  cbv iota zeta; cbn [is_str to_string].
  destruct (String.eqb_spec n "respond"); [contradiction|].
  destruct (String.eqb_spec n "shell"); [contradiction | reflexivity].
Qed.

Lemma other_tool_line_witness :
  renderOutputItem (tool_call "move" "north") Normal =
  Some (Some (mkMsg Right (JStr "[move] north") Normal JUndef false)).
Proof.
  apply (other_tool_line (tool_call "move" "north") Normal "move" "north");
    [reflexivity | reflexivity | discriminate | discriminate | reflexivity].
Defined.

(** X7: [strip] leaves unchanged a prompt with no timestamp key in which
    a ["## Current mood"] block comes after a part with no [#] and is not
    followed by any line starting with [##]: the mood regex needs a later
    [##] heading, so a trailing mood block is kept. *)
Theorem strip_keeps_trailing_mood p q :
  contains "#" p = false ->
  contains (nl ++ "##")%string q = false ->
  contains time_key (p ++ "## Current mood" ++ nl ++ q)%string = false ->
  strip (p ++ "## Current mood" ++ nl ++ q)%string = (p ++ "## Current mood" ++ nl ++ q)%string.
Proof.
  intros Hp Hq Ht; unfold strip.
  rewrite (replace_time_id _ Ht), (replace_mood_prefix _ _ Hp), (replace_mood_tail _ Hq).
  reflexivity.
Qed.

Lemma strip_keeps_trailing_mood_witness :
  strip ("Intro" ++ nl ++ "## Current mood" ++ nl ++ "calm")%string =
  ("Intro" ++ nl ++ "## Current mood" ++ nl ++ "calm")%string.
Proof.
  exact (strip_keeps_trailing_mood ("Intro" ++ nl) "calm" eq_refl eq_refl eq_refl).
Defined.

(** X8: the transcript only grows when records are appended to the log:
    if the longer log renders, every prefix [cs1] renders, its lines are
    the first lines of the longer transcript, and the rest is what the
    loop produces for [cs2] starting from the last record of [cs1] and
    the [seenInputItems] reached after [cs1]. *)
Theorem transcript_append_only cs1 cs2 ms e :
  reconcile (cs1 ++ cs2) = Some (ms, e) ->
  exists ms1 e1 ms2,
    reconcile cs1 = Some (ms1, e1) /\
    reconcile_from (last_call None cs1) (length cs1) e1 cs2 = Some (ms2, e) /\
    ms = ms1 ++ ms2.
Proof.
  unfold reconcile; intros H; exact (reconcile_from_app cs1 cs2 None 0 0 ms e H).
Qed.

Lemma transcript_append_only_witness :
  exists ms1 e1 ms2,
    reconcile [normal_call "a"] = Some (ms1, e1) /\
    reconcile_from (last_call None [normal_call "a"]) 1 e1 [normal_call "b"] = Some (ms2, 0) /\
    [prompt_of (normal_call "a"); prompt_of (normal_call "b")] = ms1 ++ ms2.
Proof.
  apply (transcript_append_only [normal_call "a"] [normal_call "b"]
           [prompt_of (normal_call "a"); prompt_of (normal_call "b")] 0).
  vm_compute; reflexivity.
Defined.

(** X9: an [api_call] message on an open socket whose handlers are
    attached appends the record to [calls]; when the old log rendered,
    the new transcript, if it renders, extends the old one: lines
    already displayed are never changed or removed. *)
Theorem live_api_call_appends v r k c call ms ms' :
  nth_error (chans r) k = Some c -> ch_open c = true -> ch_attached c = true ->
  messages (calls v) = Some ms ->
  messages (calls (fst (step (v, r) (WsMessage k (MsgApiCall call))))) = Some ms' ->
  calls (fst (step (v, r) (WsMessage k (MsgApiCall call)))) = calls v ++ [call] /\
  exists ms2, ms' = ms ++ ms2.
Proof.
  intros Hk Ho Ha Hm Hm'.
  assert (Hc : calls (fst (step (v, r) (WsMessage k (MsgApiCall call)))) = calls v ++ [call]).
  { unfold step; cbn [handle]; rewrite Hk, Ho, Ha; reflexivity. }
  split; [exact Hc|]; rewrite Hc in Hm'.
  unfold messages in Hm, Hm'.
  destruct (reconcile (calls v ++ [call])) as [[m e]|] eqn:E; [|discriminate Hm'].
  injection Hm' as <-.
  apply transcript_append_only in E as (ms1 & e1 & ms2 & E1 & _ & ->).
  rewrite E1 in Hm; injection Hm as <-; exists ms2; reflexivity.
Qed.

Lemma live_api_call_appends_witness :
  calls (fst (step (run connect_a) (WsMessage 0 (MsgApiCall (normal_call "b"))))) =
    calls (fst (run connect_a)) ++ [normal_call "b"] /\
  exists ms2, [prompt_of (normal_call "b")] = [] ++ ms2.
Proof.
  apply (live_api_call_appends (fst (run connect_a)) (snd (run connect_a)) 0
           (mkChan "a" true true) (normal_call "b") [] [prompt_of (normal_call "b")]);
    vm_compute; reflexivity.
Defined.

(** X10: the Reflecting... (resp. Planning...) dividers of a transcript
    are one per maximal run of consecutive dream (resp. planning)
    records in the log, and no other system line has their phase. *)
Theorem reconcile_dividers cs ms e :
  reconcile cs = Some (ms, e) ->
  filter (is_divider Dream) ms =
    repeat reflecting_line (runs false (map (fun c => flag (is_dream c)) cs)) /\
  filter (is_divider Planning) ms =
    repeat planning_line (runs false (map (fun c => flag (is_planning c)) cs)).
Proof.
  unfold reconcile; intros H; exact (reconcile_from_dividers cs None 0 0 ms e H).
Qed.

Lemma reconcile_dividers_witness :
  filter (is_divider Dream) [reflecting_line; prompt_of (normal_call "b"); reflecting_line; planning_line] =
    repeat reflecting_line
      (runs false (map (fun c => flag (is_dream c))
         [dream_call "a"; dream_call "a"; normal_call "b"; dream_call "a"; planning_call "p"])) /\
  filter (is_divider Planning) [reflecting_line; prompt_of (normal_call "b"); reflecting_line; planning_line] =
    repeat planning_line
      (runs false (map (fun c => flag (is_planning c))
         [dream_call "a"; dream_call "a"; normal_call "b"; dream_call "a"; planning_call "p"])).
Proof.
  apply (reconcile_dividers
           [dream_call "a"; dream_call "a"; normal_call "b"; dream_call "a"; planning_call "p"]
           [reflecting_line; prompt_of (normal_call "b"); reflecting_line; planning_line] 0).
  vm_compute; reflexivity.
Defined.

(** X11: in a tool loop, where each request re-sends the input and
    output of the one before it followed by new items, the subject-side
    lines of the transcript are the first record's input followed by the
    new items of each later record, in order: nothing re-sent is shown
    twice. *)
Theorem tool_loop_no_duplicates c1 cs nws ms e :
  reconcile (c1 :: cs) = Some (ms, e) ->
  grows c1 cs nws ->
  exists ls lss,
    render_all renderInputItem (phase_of c1) (input c1) = Some ls /\
    Forall2 (fun cn ls => render_all renderInputItem (phase_of (fst cn)) (snd cn) = Some ls)
      (combine cs nws) lss /\
    filter is_left ms = ls ++ concat lss.
Proof.
  unfold reconcile; intros H Hg.
  apply reconcile_from_cons in H as (ms1 & s1 & ms2 & Hp & Hr & ->).
  apply process_call_spec in Hp as (hdr & ins & outs & -> & Hh & _ & Hi & Ho & ->).
  replace (if Nat.leb (length (input c1)) 0 then 0 else 0) with 0 in Hi
    by (destruct (Nat.leb _ _); reflexivity).
  destruct (reconcile_from_tool_loop cs c1 1 nws ms2 e Hr Hg) as (lss & HF & Hf).
  exists ins, lss; split; [exact Hi | split; [exact HF|]].
  rewrite !filter_app, Hf.
  rewrite (filter_side is_left System hdr Hh) by (intros m Hm; unfold is_left; rewrite Hm; reflexivity).
  rewrite (filter_side is_left Right outs (outputs_side _ _ _ Ho))
    by (intros m Hm; unfold is_left; rewrite Hm; reflexivity).
  rewrite (filter_id_Forall is_left ins)
    by (eapply Forall_impl; [|exact (inputs_side _ _ _ Hi)]; intros m Hm; unfold is_left; rewrite Hm; reflexivity).
  cbn [app]; rewrite app_nil_r; reflexivity.
Qed.

Lemma tool_loop_no_duplicates_witness :
  exists ls lss,
    render_all renderInputItem Normal [user_text "hi"] = Some ls /\
    Forall2 (fun cn ls => render_all renderInputItem (phase_of (fst cn)) (snd cn) = Some ls)
      (combine [call_io [user_text "hi"; shell_call "ls"; tool_result "out"] []] [[tool_result "out"]]) lss /\
    filter is_left [prompt_of (call_io [] []); left_line "hi";
                    mkMsg Right (JStr "$ ls") Normal JUndef false; left_line "out"] = ls ++ concat lss.
Proof.
  apply (tool_loop_no_duplicates (call_io [user_text "hi"] [shell_call "ls"])
           [call_io [user_text "hi"; shell_call "ls"; tool_result "out"] []] [[tool_result "out"]]
           [prompt_of (call_io [] []); left_line "hi";
            mkMsg Right (JStr "$ ls") Normal JUndef false; left_line "out"] 3).
  - vm_compute; reflexivity.
  - cbn; split; [discriminate | split; reflexivity].
Defined.

(** X12: in every reachable state the countdown interval runs only
    during a conversation, the countdown effect has seen the current
    [conversing], and outside a conversation the countdown is 0. *)
Theorem countdown_invariant evs :
  effConversing (snd (run evs)) = conversing (fst (run evs)) /\
  (ticking (snd (run evs)) = true -> conversing (fst (run evs)) = true) /\
  (conversing (fst (run evs)) = false -> countdown (fst (run evs)) = 0%Z).
Proof. exact (run_countdown_ok evs). Qed.

(** X13: in a reachable state, an "ended" conversation message on the
    current socket ends the conversation, sets the countdown to 0 and
    leaves no countdown interval running. *)
Theorem ended_stops_countdown evs k c :
  nth_error (chans (snd (run evs))) k = Some c -> ch_open c = true -> ch_attached c = true ->
  conversing (fst (step (run evs) (WsMessage k (MsgConversation Ended)))) = false /\
  countdown (fst (step (run evs) (WsMessage k (MsgConversation Ended)))) = 0%Z /\
  ticking (snd (step (run evs) (WsMessage k (MsgConversation Ended)))) = false.
Proof.
  intros Hk Ho Ha.
  destruct (run_countdown_ok evs) as (He & Ht & _).
  destruct (run evs) as [v r]; cbn [fst snd] in *.
  unfold step; cbn [handle]; rewrite Hk, Ho, Ha; cbn [andb onmessage].
  unfold commit; cbn [conversing countdown set_countdown set_conversing].
  destruct (Bool.eqb false (effConversing r)) eqn:Eb; cbn [fst snd ticking set_ticking set_effConversing].
  - apply Bool.eqb_prop in Eb.
    split; [reflexivity | split; [reflexivity|]].
    destruct (ticking r) eqn:T; [|reflexivity].
    specialize (Ht eq_refl); congruence.
  - split; [reflexivity | split; reflexivity].
Qed.

Lemma ended_stops_countdown_witness :
  conversing (fst (step (run (connect_a ++ [WsMessage 0 (MsgConversation (Waiting 5))]))
                     (WsMessage 0 (MsgConversation Ended)))) = false /\
  countdown (fst (step (run (connect_a ++ [WsMessage 0 (MsgConversation (Waiting 5))]))
                   (WsMessage 0 (MsgConversation Ended)))) = 0%Z /\
  ticking (snd (step (run (connect_a ++ [WsMessage 0 (MsgConversation (Waiting 5))]))
                 (WsMessage 0 (MsgConversation Ended)))) = false.
Proof.
  apply (ended_stops_countdown (connect_a ++ [WsMessage 0 (MsgConversation (Waiting 5))]) 0
           (mkChan "a" true true)); vm_compute; reflexivity.
Defined.

(** X14: the countdown effect depends on [conversing] only: a "waiting"
    message that arrives during a conversation whose countdown interval
    has already stopped sets the countdown to its timeout, but no
    interval is started, so the countdown stays at that value through any
    number of interval ticks. *)
Theorem waiting_while_conversing_freezes evs k c t n :
  nth_error (chans (snd (run evs))) k = Some c -> ch_open c = true -> ch_attached c = true ->
  conversing (fst (run evs)) = true -> ticking (snd (run evs)) = false ->
  countdown (fst (fold_left step (repeat Tick n)
    (step (run evs) (WsMessage k (MsgConversation (Waiting t)))))) = t /\
  ticking (snd (fold_left step (repeat Tick n)
    (step (run evs) (WsMessage k (MsgConversation (Waiting t)))))) = false.
Proof.
  intros Hk Ho Ha Hc Ht.
  pose proof (run_eff evs) as He.
  destruct (run evs) as [v r]; cbn [fst snd] in *.
  assert (Hs : step (v, r) (WsMessage k (MsgConversation (Waiting t))) =
               (set_countdown t (set_conversing true v), r)).
  { unfold step; cbn [handle]; rewrite Hk, Ho, Ha; cbn [andb onmessage].
    rewrite commit_same; [reflexivity | cbn; congruence]. }
  rewrite Hs, (ticks_stopped n _ r Ht); [cbn [fst snd countdown set_countdown]; split; [reflexivity | exact Ht] | cbn; congruence].
Qed.

Lemma waiting_while_conversing_freezes_witness :
  countdown (fst (fold_left step (repeat Tick 3)
    (step (run (connect_a ++ [WsMessage 0 (MsgConversation (Waiting 1)); Tick]))
          (WsMessage 0 (MsgConversation (Waiting 5)))))) = 5%Z /\
  ticking (snd (fold_left step (repeat Tick 3)
    (step (run (connect_a ++ [WsMessage 0 (MsgConversation (Waiting 1)); Tick]))
          (WsMessage 0 (MsgConversation (Waiting 5)))))) = false.
Proof.
  apply (waiting_while_conversing_freezes
           (connect_a ++ [WsMessage 0 (MsgConversation (Waiting 1)); Tick]) 0
           (mkChan "a" true true) 5 3); vm_compute; reflexivity.
Defined.

(** X15: in every reachable state no socket has two pending reconnect
    timers, and every pending timer belongs to a socket that has closed. *)
Theorem reconnect_timers_closed evs :
  NoDup (map fst (timers (snd (run evs)))) /\
  forall k id, In (k, id) (timers (snd (run evs))) ->
    exists c, nth_error (chans (snd (run evs))) k = Some c /\ ch_open c = false.
Proof. exact (run_timers_ok evs). Qed.

(** X16: in a reachable state, a message arriving on any socket other
    than the current one ([wsRef.current]) changes nothing. *)
Theorem only_current_socket_updates evs k m :
  wsRef (snd (run evs)) <> Some k ->
  step (run evs) (WsMessage k m) = run evs.
Proof.
  intros Hw; pose proof (run_one_open evs) as H1; pose proof (run_eff evs) as He.
  destruct (run evs) as [v r]; cbn [fst snd] in *.
  unfold step; cbn [handle].
  destruct (nth_error (chans r) k) as [c|] eqn:Hk.
  - destruct (ch_open c) eqn:Ho; cbn [andb].
    + exfalso; exact (Hw (H1 k c Hk Ho)).
    + rewrite commit_same by (symmetry; exact He); reflexivity.
  - rewrite commit_same by (symmetry; exact He); reflexivity.
Qed.

Lemma only_current_socket_updates_witness :
  step (run b_connected) (WsMessage 0 (MsgConversation (Waiting 5))) = run b_connected.
Proof.
  apply only_current_socket_updates; vm_compute; discriminate.
Defined.

(** X17: in a reachable state, clicking the switcher button of the crab
    already shown changes nothing: no reset, no reload, no new socket. *)
Theorem switch_to_active_noop evs :
  step (run evs) (Switch (activeCrab (fst (run evs)))) = run evs.
Proof.
  pose proof (run_eff evs) as He.
  destruct (run evs) as [v r]; cbn [fst snd] in *.
  unfold step; cbn [handle]; unfold switchCrab; rewrite String.eqb_refl.
  rewrite commit_same by (symmetry; exact He); reflexivity.
Qed.


